(** * CUDA graph lifecycle and TF type legalization: a shallow embedding

    Two source files are embedded:

    - [tensorflow/compiler/mlir/tf2xla/transforms/legalize_tf_types.cc]
      (module [LegalizeTfTypes]): the pure type rewriting functions.
    - [tensorflow/compiler/xla/stream_executor/cuda/cuda_graph.cc]
      (module [CudaGraph]): the RAII helpers, the lifecycle counters and
      the capture / instantiate / update / launch entry points, written
      as state transformers over an explicit [World]. *)

From Stdlib Require Import ZArith NArith String List Sorted Bool Lia.
Import ListNotations.

Set Implicit Arguments.

(* ===================================================================== *)
(** * legalize_tf_types.cc *)
(* ===================================================================== *)

Module LegalizeTfTypes.

(** [mlir::IntegerType::SignednessSemantics]. [IntegerType::get(ctx, w)]
    without a third argument builds a [Signless] integer. *)
Inductive SignednessSemantics : Type :=
| Signless
| Signed
| Unsigned.

(** The builtin types that implement the [ShapedType] interface. *)
Inductive ShapedKind : Type :=
| RankedTensor
| UnrankedTensor
| MemRef
| UnrankedMemRef
| Vector.

(** [mlir::Type], as far as the pass looks into it: the five quantized TF
    element types, builtin integers, shaped types (kind, shape, element
    type), and every other type, kept opaque under its printed name. *)
Inductive Ty : Type :=
| Qint8Type
| Qint16Type
| Qint32Type
| Quint8Type
| Quint16Type
| IntegerType (width : N) (signedness : SignednessSemantics)
| OtherType (name : string)
| ShapedType (kind : ShapedKind) (shape : option (list Z)) (elem : Ty).

(** [type.dyn_cast<ShapedType>()], as the element type it exposes. *)
Definition dyn_cast_ShapedType (type : Ty) : option Ty :=
  match type with
  | ShapedType _ _ elem => Some elem
  | _ => None
  end.

(** [shaped.clone(elem)]: same kind and shape, new element type. *)
Definition clone (shaped : Ty) (elem : Ty) : Ty :=
  match shaped with
  | ShapedType k sh _ => ShapedType k sh elem
  | _ => shaped
  end.

(** [mlir::getElementTypeOrSelf]. *)
Definition getElementTypeOrSelf (type : Ty) : Ty :=
  match dyn_cast_ShapedType type with
  | Some elem => elem
  | None => type
  end.

(** [IntegerType::isUnsigned] and [getIntOrFloatBitWidth] on integers. *)
Definition isUnsigned (type : Ty) : bool :=
  match type with
  | IntegerType _ Unsigned => true
  | _ => false
  end.

Definition getWidth (type : Ty) : option N :=
  match type with
  | IntegerType w _ => Some w
  | _ => None
  end.

Definition IsIllegalElementType (type : Ty) : bool :=
  match type with
  | Qint8Type | Qint16Type | Qint32Type | Quint8Type | Quint16Type => true
  | _ => false
  end.

Definition ToLegalElementType (type : Ty) : Ty :=
  match type with
  | Qint8Type => IntegerType 8 Signless
  | Qint16Type => IntegerType 16 Signless
  | Qint32Type => IntegerType 32 Signless
  | Quint8Type => IntegerType 8 Unsigned
  | Quint16Type => IntegerType 16 Unsigned
  | _ => type
  end.

Definition IsIllegalType (type : Ty) : bool :=
  IsIllegalElementType (getElementTypeOrSelf type).

Fixpoint ToLegalType (type : Ty) : Ty :=
  if IsIllegalElementType type then ToLegalElementType type
  else
    match type with
    | ShapedType k sh elem =>
        if IsIllegalType elem then clone (ShapedType k sh elem) (ToLegalType elem)
        else type
    | _ => type
    end.

(** The conversion registered by [TfTypeConverter]. *)
Definition TfTypeConverter_convert (type : Ty) : Ty :=
  if IsIllegalType type then ToLegalType type else type.

(** Bit width and unsignedness the five quantized types are named after. *)
Definition quantized_width (type : Ty) : option N :=
  match type with
  | Qint8Type | Quint8Type => Some 8%N
  | Qint16Type | Quint16Type => Some 16%N
  | Qint32Type => Some 32%N
  | _ => None
  end.

Definition quantized_unsigned (type : Ty) : bool :=
  match type with
  | Quint8Type | Quint16Type => true
  | _ => false
  end.

(** ** Operations, the type converter and the conversion target *)

Local Open Scope string_scope.

(** Structural equality of types, for [TypeConverter::isLegal]. *)
Definition Ty_eq_dec : forall a b : Ty, {a = b} + {a <> b}.
Proof.
  decide equality.
  - decide equality.
  - apply N.eq_dec.
  - apply string_dec.
  - decide equality. apply (list_eq_dec Z.eq_dec).
  - decide equality.
Defined.

Definition Ty_eqb (a b : Ty) : bool := if Ty_eq_dec a b then true else false.

(** An SSA value, as far as the pass looks at it: its type. *)
Record Value : Type := mkValue {
  value_id : nat;
  value_type : Ty
}.

(** Attributes; a [func.func] keeps its signature in [function_type]. *)
Inductive Attribute : Type :=
| FunctionTypeAttr (inputs results : list Ty)
| OtherAttr (text : string).

(** [mlir::Operation]: name, operands, result types, attributes,
    successors and regions; a region is a list of blocks, a block has
    argument types and operations. *)
#[warnings="-register-all"]
Inductive Operation : Type :=
| mkOperation (name : string) (operands : list Value) (result_types : list Ty)
              (attrs : list (string * Attribute)) (successors : list nat)
              (regions : list (list (list Ty * list Operation))).

Definition Block : Type := (list Ty * list Operation)%type.
Definition Region : Type := list Block.

Definition getName (op : Operation) : string :=
  match op with mkOperation n _ _ _ _ _ => n end.
Definition getOperands (op : Operation) : list Value :=
  match op with mkOperation _ o _ _ _ _ => o end.
Definition getResultTypes (op : Operation) : list Ty :=
  match op with mkOperation _ _ r _ _ _ => r end.
Definition getAttrs (op : Operation) : list (string * Attribute) :=
  match op with mkOperation _ _ _ a _ _ => a end.
Definition getSuccessors (op : Operation) : list nat :=
  match op with mkOperation _ _ _ _ s _ => s end.
Definition getRegions (op : Operation) : list Region :=
  match op with mkOperation _ _ _ _ _ r => r end.
Definition getOperandTypes (op : Operation) : list Ty :=
  map value_type (getOperands op).

(** The operation names of the nine classes [IsUnSupportedOp] lists. *)
Definition unsupported_op_names : list string :=
  [ "tf.UniformDequantize"; "tf.UniformQuantize"; "tf.UniformQuantizedAdd";
    "tf.UniformQuantizedClipByValue"; "tf.UniformQuantizedConvolutionHybrid";
    "tf.UniformQuantizedConvolution"; "tf.UniformQuantizedDotHybrid";
    "tf.UniformQuantizedDot"; "tf.UniformRequantize" ].

Definition IsUnSupportedOp (op : Operation) : bool :=
  existsb (String.eqb (getName op)) unsupported_op_names.

(** [dyn_cast<func::FuncOp>(op)] followed by [getFunctionType()]. *)
Definition getFunctionType (op : Operation) : option (list Ty * list Ty) :=
  if String.eqb (getName op) "func.func" then
    match find (fun kv => String.eqb (fst kv) "function_type") (getAttrs op) with
    | Some (_, FunctionTypeAttr inputs results) => Some (inputs, results)
    | _ => None
    end
  else None.

(** [TypeConverter] with the single conversion of [TfTypeConverter]: the
    callback always returns a type, so [convertType] always succeeds. *)
Definition convertType (t : Ty) : option Ty := Some (TfTypeConverter_convert t).

Fixpoint convertTypes (types : list Ty) : option (list Ty) :=
  match types with
  | [] => Some []
  | t :: rest =>
      match convertType t, convertTypes rest with
      | Some t', Some rest' => Some (t' :: rest')
      | _, _ => None
      end
  end.

(** [TypeConverter::isLegal(Type)]: the type converts to itself. *)
Definition isLegalType (t : Ty) : bool :=
  match convertType t with
  | Some t' => Ty_eqb t' t
  | None => false
  end.

(** [TypeConverter::isLegal] on an operation, and [isSignatureLegal]. *)
Definition isLegal (op : Operation) : bool :=
  forallb isLegalType (getOperandTypes op) && forallb isLegalType (getResultTypes op).

Definition isSignatureLegal (ty : list Ty * list Ty) : bool :=
  forallb isLegalType (fst ty ++ snd ty)%list.

(** The callback [TfTypeConversionTarget] registers with
    [markUnknownOpDynamicallyLegal]. *)
Definition TfTypeConversionTarget_isLegal (op : Operation) : bool :=
  if IsUnSupportedOp op then true
  else
    match getFunctionType op with
    | Some ty => if negb (isSignatureLegal ty) then false else isLegal op
    | None => isLegal op
    end.

(** [/tensorflow/core/tf2xla/tf_quant_op_count]: one 64-bit signed cell
    per label. *)
Definition Counter : Type := string -> Z.

Definition wrap_int64 (z : Z) : Z := ((z + 2 ^ 63) mod 2 ^ 64 - 2 ^ 63)%Z.

Definition IncrementBy (c : Counter) (label : string) (step : Z) : Counter :=
  fun l => if String.eqb l label then wrap_int64 (c l + step) else c l.

(** [rewriter.convertRegionTypes]: the argument types of the blocks of
    the region are converted; the operations inside are left to later
    pattern applications. *)
Fixpoint convertRegionTypes (region : Region) : option Region :=
  match region with
  | [] => Some []
  | (args, ops) :: rest =>
      match convertTypes args, convertRegionTypes rest with
      | Some args', Some rest' => Some ((args', ops) :: rest')
      | _, _ => None
      end
  end.

Fixpoint convertRegions (regions : list Region) : option (list Region) :=
  match regions with
  | [] => Some []
  | r :: rest =>
      match convertRegionTypes r, convertRegions rest with
      | Some r', Some rest' => Some (r' :: rest')
      | _, _ => None
      end
  end.

(** [TfTypePattern::matchAndRewrite]: [None] is [failure()]; on success
    the operation that replaces [op] and the counter are returned. *)
Definition matchAndRewrite (op : Operation) (operands : list Value) (count : Counter)
  : option (Operation * Counter) :=
  match convertTypes (getResultTypes op) with
  | None => None
  | Some new_results =>
      match convertRegions (getRegions op) with
      | None => None
      | Some new_regions =>
          Some (mkOperation (getName op) operands new_results (getAttrs op)
                            (getSuccessors op) new_regions,
                IncrementBy count (getName op) 1)
      end
  end.

(** A quantized type occurs somewhere in the type. *)
Fixpoint mentions_quantized (t : Ty) : bool :=
  match t with
  | Qint8Type | Qint16Type | Qint32Type | Quint8Type | Quint16Type => true
  | ShapedType _ _ elem => mentions_quantized elem
  | _ => false
  end.

End LegalizeTfTypes.

(* ===================================================================== *)
(** * cuda_graph.cc *)
(* ===================================================================== *)

Module CudaGraph.

Local Open Scope string_scope.
Local Open Scope Z_scope.

(** ** Machine integers, CUDA enums and handles *)

(** [size_t] and [uint64_t] counters: 64-bit unsigned, wrapping. *)
Definition wrap64 (z : Z) : Z := z mod 2 ^ 64.

(** [cudaError_t], by its numeric value in [driver_types.h]. *)
Definition cudaError_t : Type := Z.
Definition cudaSuccess : cudaError_t := 0.
Definition cudaErrorMemoryAllocation : cudaError_t := 2.

(** [cudaGraphExecUpdateResult]; [cudaGraphExecUpdateSuccess] is 0. *)
Definition cudaGraphExecUpdateResult : Type := Z.
Definition cudaGraphExecUpdateSuccess : cudaGraphExecUpdateResult := 0.

Inductive cudaStreamCaptureMode : Type :=
| cudaStreamCaptureModeGlobal
| cudaStreamCaptureModeThreadLocal
| cudaStreamCaptureModeRelaxed.

(** Native handles are opaque pointers; [nullptr] is 0. *)
Definition cudaStream_t : Type := Z.
Definition cudaGraph_t : Type := Z.
Definition cudaGraphExec_t : Type := Z.
Definition nullptr : Z := 0.

(** [stream_executor::Stream], as far as this file uses it. *)
Record Stream : Type := mkStream {
  AsGpuStreamValue : cudaStream_t;
  DebugStreamPointers : string
}.

(** ** absl::Status and tsl::StatusOr *)

Inductive StatusCode : Type :=
| kOk | kCancelled | kUnknown | kInvalidArgument | kDeadlineExceeded
| kNotFound | kAlreadyExists | kPermissionDenied | kResourceExhausted
| kFailedPrecondition | kAborted | kOutOfRange | kUnimplemented
| kInternal | kUnavailable | kDataLoss | kUnauthenticated.

Record Status : Type := mkStatus {
  code : StatusCode;
  message : string
}.

Definition OkStatus : Status := mkStatus kOk "".
Definition InternalError (msg : string) : Status := mkStatus kInternal msg.
Definition ResourceExhaustedError (msg : string) : Status :=
  mkStatus kResourceExhausted msg.

Definition ok (s : Status) : bool :=
  match code s with
  | kOk => true
  | _ => false
  end.

Inductive StatusOr (T : Type) : Type :=
| Value (v : T)
| Error (s : Status).
Arguments Value {T} v.
Arguments Error {T} s.

(** [absl::StrFormat] with one trailing [%s]. *)
Definition StrFormat (prefix arg : string) : string := prefix ++ arg.

(** ** Owning handles *)

(** [OwnedCudaGraph] is a [std::unique_ptr] with the [DestroyGraph]
    deleter: it holds one pointer, [nullptr] when empty or moved-from. *)
Record OwnedCudaGraph : Type := mkOwnedCudaGraph {
  graph_get : cudaGraph_t
}.

(** [OwnedCudaGraphExec] is a [std::unique_ptr] with the [DestroyGraphExec]
    deleter, extended with an identity and two counters. *)
Record OwnedCudaGraphExec : Type := mkOwnedCudaGraphExec {
  exec_get : cudaGraphExec_t;
  id_ : Z;
  num_updates_ : Z;
  num_launches_ : Z
}.

(** The constructor [OwnedCudaGraphExec(id, exec)]: counters start at 0. *)
Definition new_OwnedCudaGraphExec (id : Z) (exec : cudaGraphExec_t)
  : OwnedCudaGraphExec :=
  mkOwnedCudaGraphExec exec id 0 0.

(** [explicit operator bool] of [unique_ptr]: the pointer is not null. *)
Definition graph_bool (g : OwnedCudaGraph) : bool :=
  negb (graph_get g =? nullptr).
Definition exec_bool (e : OwnedCudaGraphExec) : bool :=
  negb (exec_get e =? nullptr).

Definition set_num_updates (n : Z) (e : OwnedCudaGraphExec) :=
  mkOwnedCudaGraphExec (exec_get e) (id_ e) n (num_launches_ e).
Definition set_num_launches (n : Z) (e : OwnedCudaGraphExec) :=
  mkOwnedCudaGraphExec (exec_get e) (id_ e) (num_updates_ e) n.

(** Modelled from the spec: the move constructors of the two handle
    classes are declared in cuda_graph.h, which is not part of the
    sources. A handle is a move-only wrapper that owns one resource or is
    empty (moved-from): moving leaves the source without its pointer. *)
Definition graph_moved_from (g : OwnedCudaGraph) : OwnedCudaGraph :=
  mkOwnedCudaGraph nullptr.
Definition exec_moved_from (e : OwnedCudaGraphExec) : OwnedCudaGraphExec :=
  mkOwnedCudaGraphExec nullptr (id_ e) (num_updates_ e) (num_launches_ e).

(** ** The world the code runs in *)

(** Modelled from the spec: the capture state of a stream is owned by the
    CUDA runtime, not by this file. It is one of Idle and Capturing. *)
Inductive CaptureState : Type :=
| Idle
| Capturing.

(** Calls that leave this file, in the order they are made. The two
    [EvNotify...] events are instrumentation of the registry functions,
    so that the number of calls can be read off the trace. *)
Inductive Event : Type :=
| EvStreamBeginCapture (s : cudaStream_t) (mode : cudaStreamCaptureMode)
| EvCapture
| EvStreamEndCapture (s : cudaStream_t)
| EvGraphDebugDotPrint (g : cudaGraph_t) (file : string)
| EvCreateUniqueFileName (file : string)
| EvReadFileToString (file : string)
| EvGraphInstantiate (g : cudaGraph_t)
| EvGetLastError
| EvGraphExecUpdate (e : cudaGraphExec_t) (g : cudaGraph_t)
| EvGraphLaunch (e : cudaGraphExec_t) (s : cudaStream_t)
| EvGraphDestroy (g : cudaGraph_t)
| EvGraphExecDestroy (e : cudaGraphExec_t)
| EvStreamIsCapturing (s : cudaStream_t)
| EvNotifyGraphExecCreated
| EvNotifyGraphExecDestroyed.

Record World : Type := mkWorld {
  capture_state : cudaStream_t -> CaptureState;
  allocated_cuda_graph_execs_ : Z;
  alive_cuda_graph_execs_ : Z;
  trace : list Event
}.

Definition set_capture_state (s : cudaStream_t) (c : CaptureState) (w : World) :=
  mkWorld (fun s' => if s' =? s then c else capture_state w s')
          (allocated_cuda_graph_execs_ w) (alive_cuda_graph_execs_ w) (trace w).
Definition set_allocated (n : Z) (w : World) :=
  mkWorld (capture_state w) n (alive_cuda_graph_execs_ w) (trace w).
Definition set_alive (n : Z) (w : World) :=
  mkWorld (capture_state w) (allocated_cuda_graph_execs_ w) n (trace w).
Definition record (e : Event) (w : World) :=
  mkWorld (capture_state w) (allocated_cuda_graph_execs_ w)
          (alive_cuda_graph_execs_ w) (trace w ++ [e])%list.

(** Static initialisation: both atomics are zero, no stream captures. *)
Definition initial_world : World := mkWorld (fun _ => Idle) 0 0 [].

(** What the CUDA runtime answers to each call, as a function of
    everything that happened so far. *)
Record Driver : Type := mkDriver {
  cudaGetErrorString : cudaError_t -> string;
  StreamBeginCapture_result :
    World -> cudaStream_t -> cudaStreamCaptureMode -> cudaError_t;
  StreamEndCapture_result : World -> cudaStream_t -> cudaError_t * cudaGraph_t;
  GraphDebugDotPrint_result : World -> cudaGraph_t -> string -> cudaError_t;
  GraphInstantiate_result : World -> cudaGraph_t -> cudaError_t * cudaGraphExec_t;
  GetLastError_result : World -> cudaError_t;
  GraphExecUpdate_result :
    World -> cudaGraphExec_t -> cudaGraph_t ->
    cudaError_t * cudaGraphExecUpdateResult;
  GraphLaunch_result : World -> cudaGraphExec_t -> cudaStream_t -> cudaError_t;
  GraphDestroy_result : World -> cudaGraph_t -> cudaError_t;
  GraphExecDestroy_result : World -> cudaGraphExec_t -> cudaError_t;
  StreamIsCapturing_result : World -> cudaStream_t -> cudaError_t
}.

(** The build and the process environment. [VLOG_IS_ON n] tells whether
    verbose logging is enabled at level [n]. The macro of
    tsl/platform/default/logging.h expands [VLOG(n) << e1 << e2] to
    [!VLOG_IS_ON(n) ? (void)0 : Voidifier() & LogMessage(...) << e1 << e2],
    so the streamed operands, with their side effects, are evaluated
    only when level [n] is on; it is off unless verbose logging was
    asked for. *)
Record Platform : Type := mkPlatform {
  CUDA_VERSION : Z;
  VLOG_IS_ON : nat -> bool;
  getenv : string -> option string;
  JoinPath : string -> string -> string;
  CreateUniqueFileName_result : World -> string -> string -> option string;
  ReadFileToString_ok : World -> string -> bool
}.

(** ** A state monad over the world *)

Definition M (A : Type) : Type := World -> A * World.

Definition ret {A : Type} (a : A) : M A := fun w => (a, w).
Definition bind {A B : Type} (m : M A) (k : A -> M B) : M B :=
  fun w => let (a, w') := m w in k a w'.
Definition emit (e : Event) : M unit := fun w => (tt, record e w).

Notation "x <- m ;; k" := (bind m (fun x => k))
  (at level 61, m at next level, right associativity).
Notation "' pat <- m ;; k" := (bind m (fun x => match x with pat => k end))
  (at level 61, pat pattern, m at next level, right associativity).
Notation "m ;;; k" := (bind m (fun _ => k))
  (at level 61, right associativity).

(** Process termination by a failed [CHECK]. *)
Inductive Outcome : Type :=
| Returned (w : World)
| Fatal (msg : string) (w : World).

Section Code.

Variable plat : Platform.
Variable drv : Driver.

(** ** Native calls

    Each call appends its event and returns what the driver answers. *)

(** Modelled from the spec: begin-capture moves the stream from Idle to
    Capturing when it succeeds; end-capture moves it back to Idle
    unconditionally and hands out the captured graph resource. *)
Definition cudaStreamBeginCapture (s : cudaStream_t) (mode : cudaStreamCaptureMode)
  : M cudaError_t :=
  fun w =>
    let err := StreamBeginCapture_result drv w s mode in
    (err, record (EvStreamBeginCapture s mode)
                 (if err =? cudaSuccess then set_capture_state s Capturing w else w)).

Definition cudaStreamEndCapture (s : cudaStream_t) : M (cudaError_t * cudaGraph_t) :=
  fun w =>
    (StreamEndCapture_result drv w s,
     record (EvStreamEndCapture s) (set_capture_state s Idle w)).

Definition cudaStreamIsCapturing (s : cudaStream_t) : M (cudaError_t * CaptureState) :=
  fun w =>
    ((StreamIsCapturing_result drv w s, capture_state w s),
     record (EvStreamIsCapturing s) w).

Definition cudaGraphDebugDotPrint (g : cudaGraph_t) (file : string) : M cudaError_t :=
  fun w => (GraphDebugDotPrint_result drv w g file, record (EvGraphDebugDotPrint g file) w).

Definition cudaGraphInstantiate (g : cudaGraph_t) : M (cudaError_t * cudaGraphExec_t) :=
  fun w => (GraphInstantiate_result drv w g, record (EvGraphInstantiate g) w).

Definition cudaGetLastError : M cudaError_t :=
  fun w => (GetLastError_result drv w, record EvGetLastError w).

Definition cudaGraphExecUpdate (e : cudaGraphExec_t) (g : cudaGraph_t)
  : M (cudaError_t * cudaGraphExecUpdateResult) :=
  fun w => (GraphExecUpdate_result drv w e g, record (EvGraphExecUpdate e g) w).

Definition cudaGraphLaunch (e : cudaGraphExec_t) (s : cudaStream_t) : M cudaError_t :=
  fun w => (GraphLaunch_result drv w e s, record (EvGraphLaunch e s) w).

Definition cudaGraphDestroy (g : cudaGraph_t) : M cudaError_t :=
  fun w => (GraphDestroy_result drv w g, record (EvGraphDestroy g) w).

Definition cudaGraphExecDestroy (e : cudaGraphExec_t) : M cudaError_t :=
  fun w => (GraphExecDestroy_result drv w e, record (EvGraphExecDestroy e) w).

Definition CreateUniqueFileName (file suffix : string) : M (option string) :=
  fun w => (CreateUniqueFileName_result plat w file suffix,
            record (EvCreateUniqueFileName file) w).

Definition ReadFileToString (file : string) : M bool :=
  fun w => (ReadFileToString_ok plat w file, record (EvReadFileToString file) w).

(** ** CudaGraphSupport: the lifecycle counters

    [std::atomic<size_t>::fetch_add] and [fetch_sub] return the value
    held before the operation. *)
Definition alive_fetch_add (n : Z) : M Z :=
  fun w => (alive_cuda_graph_execs_ w,
            set_alive (wrap64 (alive_cuda_graph_execs_ w + n)) w).
Definition alive_fetch_sub (n : Z) : M Z :=
  fun w => (alive_cuda_graph_execs_ w,
            set_alive (wrap64 (alive_cuda_graph_execs_ w - n)) w).
Definition allocated_fetch_add (n : Z) : M Z :=
  fun w => (allocated_cuda_graph_execs_ w,
            set_allocated (wrap64 (allocated_cuda_graph_execs_ w + n)) w).

Definition NotifyGraphExecCreated : M Z :=
  emit EvNotifyGraphExecCreated ;;;
  alive_fetch_add 1 ;;;
  allocated_fetch_add 1.

Definition NotifyGraphExecDestroyed : M Z :=
  emit EvNotifyGraphExecDestroyed ;;;
  old <- alive_fetch_sub 1 ;;
  ret (wrap64 (old - 1)).

Definition allocated_cuda_graph_execs : M Z :=
  fun w => (allocated_cuda_graph_execs_ w, w).

Definition alive_cuda_graph_execs : M Z :=
  fun w => (alive_cuda_graph_execs_ w, w).

(** ** Release actions and destructors

    [CHECK(cond) << msg] terminates the process when [cond] is false;
    [Fatal] carries the streamed message (the macro puts the text of the
    failed condition in front of it). *)
Definition CHECK (cond : bool) (msg : string) (w : World) : Outcome :=
  if cond then Returned w else Fatal msg w.

Definition DestroyGraph (graph : cudaGraph_t) (w : World) : Outcome :=
  let (err, w1) := cudaGraphDestroy graph w in
  CHECK (err =? cudaSuccess)
        ("Failed to destroy CUDA graph: " ++ cudaGetErrorString drv err) w1.

Definition DestroyGraphExec (instance : cudaGraphExec_t) (w : World) : Outcome :=
  let (err, w1) := cudaGraphExecDestroy instance w in
  CHECK (err =? cudaSuccess)
        ("Failed to destroy CUDA graph instance: " ++ cudaGetErrorString drv err) w1.

(** [~unique_ptr]: the deleter runs when the pointer is not null. *)
Definition OwnedCudaGraph_dtor (g : OwnedCudaGraph) (w : World) : Outcome :=
  if graph_bool g then DestroyGraph (graph_get g) w else Returned w.

(** [~OwnedCudaGraphExec]: the body, then the [unique_ptr] base. The call
    of [NotifyGraphExecDestroyed] is an operand of the [VLOG(5)]
    statement. *)
Definition OwnedCudaGraphExec_dtor_body (e : OwnedCudaGraphExec) : M unit :=
  if exec_bool e then
    if VLOG_IS_ON plat 5 then NotifyGraphExecDestroyed ;;; ret tt
    else ret tt
  else ret tt.

Definition OwnedCudaGraphExec_dtor (e : OwnedCudaGraphExec) (w : World) : Outcome :=
  let (_, w1) := OwnedCudaGraphExec_dtor_body e w in
  if exec_bool e then DestroyGraphExec (exec_get e) w1 else Returned w1.

(** ** OwnedCudaGraphExec::Update and ::Launch

    Both return the status together with the handle as the call leaves
    it. [num_updates_++] and [++num_launches_] are operands of the
    [VLOG(3)] statements; [num_launches_ = 0] is a statement of its own.
    [Update] is the body of the function, up to its return statement: the
    graph handle it takes by value is released when the call ends, after
    the status is built, and [Update_call] below is the whole call. *)
Definition Update (self : OwnedCudaGraphExec) (graph : OwnedCudaGraph)
  : M (Status * OwnedCudaGraphExec) :=
  let self1 :=
    if VLOG_IS_ON plat 3
    then set_num_updates (wrap64 (num_updates_ self + 1)) self
    else self in
  let self2 := set_num_launches 0 self1 in
  '(err, updated) <- cudaGraphExecUpdate (exec_get self2) (graph_get graph) ;;
  if negb (err =? cudaSuccess) || negb (updated =? cudaGraphExecUpdateSuccess)
  then
    ret (InternalError
           (if 12000 <=? CUDA_VERSION plat
            then StrFormat "failed to update cuda graph: " (cudaGetErrorString drv err)
            else StrFormat "Failed to update cuda graph " (cudaGetErrorString drv err)),
         self2)
  else ret (OkStatus, self2).

Definition Launch (self : OwnedCudaGraphExec) (stream : Stream)
  : M (Status * OwnedCudaGraphExec) :=
  let self1 :=
    if VLOG_IS_ON plat 3
    then set_num_launches (wrap64 (num_launches_ self + 1)) self
    else self in
  err <- cudaGraphLaunch (exec_get self1) (AsGpuStreamValue stream) ;;
  if negb (err =? cudaSuccess)
  then ret (InternalError
              (StrFormat "failed to run cuda graph: " (cudaGetErrorString drv err)),
            self1)
  else ret (OkStatus, self1).

(** ** CUDA graph helpers *)

(** The debug dump of a captured graph, compiled in from CUDA 12. Log
    lines are not modelled; the calls that leave the file are. *)
Definition debug_dot_print (graph : cudaGraph_t) : M unit :=
  if (12000 <=? CUDA_VERSION plat) && VLOG_IS_ON plat 100 then
    match getenv plat "XLA_CUDA_GRAPH_DEBUG_DIRECTORY" with
    | Some path =>
        let file := JoinPath plat path "/cuda_graph-" in
        created <- CreateUniqueFileName file ".dot" ;;
        match created with
        | Some file' =>
            err <- cudaGraphDebugDotPrint graph file' ;;
            if negb (err =? cudaSuccess) then ret tt
            else if VLOG_IS_ON plat 200 then ReadFileToString file' ;;; ret tt
            else ret tt
        | None => ret tt
        end
    | None => ret tt
    end
  else ret tt.

Definition CaptureCudaGraph (stream : Stream) (capture : M Status)
           (mode : cudaStreamCaptureMode) : M (StatusOr OwnedCudaGraph) :=
  let gpu_stream := AsGpuStreamValue stream in
  err <- cudaStreamBeginCapture gpu_stream mode ;;
  if negb (err =? cudaSuccess)
  then ret (Error (InternalError
                     (StrFormat "stream begin capture failed: "
                                (cudaGetErrorString drv err))))
  else
    captured <- (emit EvCapture ;;; capture) ;;
    '(err, graph) <- cudaStreamEndCapture gpu_stream ;;
    if negb (err =? cudaSuccess)
    then ret (Error (InternalError
                       (StrFormat "stream end capture failed: "
                                  (cudaGetErrorString drv err))))
    else if negb (ok captured)
    then ret (Error (InternalError
                       (StrFormat "failed to capture CUDA graph: "
                                  (message captured))))
    else
      debug_dot_print graph ;;;
      ret (Value (mkOwnedCudaGraph graph)).

(** [InstantiateCudaGraph] is the body of the function, up to its return
    statement: the graph handle it takes by value is released when the
    call ends, after the result is built, and [InstantiateCudaGraph_call]
    below is the whole call. *)
Definition InstantiateCudaGraph (graph : OwnedCudaGraph)
  : M (StatusOr OwnedCudaGraphExec) :=
  '(err, exec) <- cudaGraphInstantiate (graph_get graph) ;;
  if negb (err =? cudaSuccess) then
    if err =? cudaErrorMemoryAllocation then
      last <- cudaGetLastError ;;
      ret (Error (ResourceExhaustedError
                    (StrFormat "graph instantiation failed: "
                               (cudaGetErrorString drv last))))
    else
      ret (Error (InternalError
                    (StrFormat "graph instantiation failed: "
                               (cudaGetErrorString drv err))))
  else
    id <- NotifyGraphExecCreated ;;
    ret (Value (new_OwnedCudaGraphExec id exec)).

Definition IsStreamCapturing (stream : Stream) : M (StatusOr bool) :=
  '(err, capture_status) <- cudaStreamIsCapturing (AsGpuStreamValue stream) ;;
  if negb (err =? cudaSuccess)
  then ret (Error (InternalError
                     (StrFormat "Failed to get stream's capture status: "
                                (cudaGetErrorString drv err))))
  else ret (Value (match capture_status with Capturing => true | Idle => false end)).

(** The world in which the capture callback starts once begin-capture
    has succeeded. *)
Definition world_at_capture (stream : Stream) (mode : cudaStreamCaptureMode)
           (w : World) : World :=
  record EvCapture
         (record (EvStreamBeginCapture (AsGpuStreamValue stream) mode)
                 (set_capture_state (AsGpuStreamValue stream) Capturing w)).

(** ** Sequences of calls *)

(** [n] calls of [Launch] on one handle and one stream; the statuses are
    returned oldest first. *)
Fixpoint Launch_times (n : nat) (self : OwnedCudaGraphExec) (stream : Stream)
  : M (list Status * OwnedCudaGraphExec) :=
  match n with
  | O => ret ([], self)
  | S n' =>
      '(st, self1) <- Launch self stream ;;
      '(sts, self2) <- Launch_times n' self1 stream ;;
      ret (st :: sts, self2)
  end.

(** Calls of the two notification functions in any order; the identities
    handed out by [NotifyGraphExecCreated] are returned in call order. *)
Inductive RegistryCall : Type :=
| CallCreated
| CallDestroyed.

Fixpoint registry_calls (calls : list RegistryCall) : M (list Z) :=
  match calls with
  | [] => ret []
  | CallCreated :: rest =>
      id <- NotifyGraphExecCreated ;;
      ids <- registry_calls rest ;;
      ret (id :: ids)
  | CallDestroyed :: rest =>
      NotifyGraphExecDestroyed ;;;
      registry_calls rest
  end.

Definition count_created (calls : list RegistryCall) : Z :=
  Z.of_nat (length (filter (fun c => match c with CallCreated => true | _ => false end) calls)).

(** A client that instantiates graphs and destroys the handles it holds.
    [instantiated] counts the instantiations that returned a handle,
    [destroyed] the destructions of handles that were not empty. *)
Inductive LifecycleOp : Type :=
| OpInstantiate (graph : OwnedCudaGraph)
| OpDestroy (k : nat).

Record Client : Type := mkClient {
  held : list OwnedCudaGraphExec;
  instantiated : Z;
  destroyed : Z
}.

Definition new_client : Client := mkClient [] 0 0.

Fixpoint remove_nth {A : Type} (k : nat) (l : list A) : list A :=
  match l, k with
  | [], _ => []
  | _ :: t, O => t
  | h :: t, S k' => h :: remove_nth k' t
  end.

(** One operation; [None] when the handle does not exist or the process
    is terminated by a failed [CHECK]. *)
Definition lifecycle_step (op : LifecycleOp) (c : Client) (w : World)
  : option (Client * World) :=
  match op with
  | OpInstantiate graph =>
      match InstantiateCudaGraph graph w with
      | (Value e, w1) =>
          Some (mkClient (held c ++ [e])%list (instantiated c + 1) (destroyed c), w1)
      | (Error _, w1) => Some (c, w1)
      end
  | OpDestroy k =>
      match nth_error (held c) k with
      | None => None
      | Some e =>
          match OwnedCudaGraphExec_dtor e w with
          | Returned w1 =>
              Some (mkClient (remove_nth k (held c)) (instantiated c)
                             (destroyed c + (if exec_bool e then 1 else 0)), w1)
          | Fatal _ _ => None
          end
      end
  end.

Fixpoint lifecycle_run (ops : list LifecycleOp) (c : Client) (w : World)
  : option (Client * World) :=
  match ops with
  | [] => Some (c, w)
  | op :: rest =>
      match lifecycle_step op c w with
      | Some (c1, w1) => lifecycle_run rest c1 w1
      | None => None
      end
  end.

End Code.

(** [a; a + 1; ...], [n] values. *)
Fixpoint consecutive_from (a : Z) (n : nat) : list Z :=
  match n with
  | O => []
  | S n' => a :: consecutive_from (a + 1) n'
  end.

(** Handles of a client that are not empty. *)
Definition count_nonempty (l : list OwnedCudaGraphExec) : Z :=
  Z.of_nat (length (filter exec_bool l)).

Definition count_instantiate (ops : list LifecycleOp) : Z :=
  Z.of_nat (length (filter (fun op => match op with OpInstantiate _ => true | _ => false end) ops)).

(** What the counters must be for a client that instantiated and
    destroyed as its own counts say. *)
Definition lifecycle_inv (c : Client) (w : World) : Prop :=
  allocated_cuda_graph_execs_ w = instantiated c
  /\ alive_cuda_graph_execs_ w = instantiated c - destroyed c
  /\ count_nonempty (held c) <= alive_cuda_graph_execs_ w
  /\ 0 <= destroyed c.

(** ** Reading the trace *)

Definition is_NotifyGraphExecDestroyed (e : Event) : bool :=
  match e with
  | EvNotifyGraphExecDestroyed => true
  | _ => false
  end.

Definition is_NotifyGraphExecCreated (e : Event) : bool :=
  match e with
  | EvNotifyGraphExecCreated => true
  | _ => false
  end.

Definition calls (p : Event -> bool) (w : World) : nat :=
  length (filter p (trace w)).

Definition outcome_world (o : Outcome) : World :=
  match o with
  | Returned w => w
  | Fatal _ w => w
  end.

(** ** Concrete platforms and drivers *)

Definition quiet_platform : Platform :=
  mkPlatform 12000 (fun _ => false) (fun _ => None)
             (fun a b => a ++ b) (fun _ f suffix => Some (f ++ suffix)) (fun _ _ => true).

Definition verbose_platform : Platform :=
  mkPlatform 12000 (fun _ => true) (fun _ => None)
             (fun a b => a ++ b) (fun _ f suffix => Some (f ++ suffix)) (fun _ _ => true).

Definition error_text (err : cudaError_t) : string :=
  if err =? 0 then "no error"
  else if err =? 2 then "out of memory"
  else if err =? 901 then "operation failed due to a previous error during capture"
  else "unspecified failure".

(** A driver with fixed answers: the error codes of begin-capture,
    end-capture, instantiate, update, launch and the two destroy calls;
    graphs live at 28672, executables at 4096. *)
Definition fixed_driver (begin_err end_err inst_err upd_err launch_err destroy_err
                          : cudaError_t) : Driver :=
  mkDriver error_text
           (fun _ _ _ => begin_err)
           (fun _ _ => (end_err, if end_err =? 0 then 28672 else nullptr))
           (fun _ _ _ => 0)
           (fun _ _ => (inst_err, if inst_err =? 0 then 4096 else nullptr))
           (fun _ => inst_err)
           (fun _ _ _ => (upd_err, if upd_err =? 0 then 0 else 1))
           (fun _ _ _ => launch_err)
           (fun _ _ => destroy_err)
           (fun _ _ => destroy_err)
           (fun _ _ => 0).

Definition healthy_driver : Driver := fixed_driver 0 0 0 0 0 0.

Definition stream7 : Stream := mkStream 7 "stream=0x7".

(** A capture callback that enqueues nothing and reports a failure. *)
Definition failing_capture : M Status :=
  ret (mkStatus kInvalidArgument "boom").

Definition succeeding_capture : M Status := ret OkStatus.

(** ** Calls that take a graph handle by value

    [Update] and [InstantiateCudaGraph] take their [OwnedCudaGraph] by
    value and leave it non-empty, so the call ends with the destructor of
    that parameter: the graph is released once the return value has been
    built, and a failed release terminates the process before the caller
    sees the value. *)
Inductive Call (A : Type) : Type :=
| Completed (a : A) (w : World)
| Aborted (msg : string) (w : World).
Arguments Completed {A} a w.
Arguments Aborted {A} msg w.

Definition call_world {A : Type} (c : Call A) : World :=
  match c with
  | Completed _ w => w
  | Aborted _ w => w
  end.

Definition consume_graph {A : Type} (drv : Driver) (graph : OwnedCudaGraph)
           (body : M A) (w : World) : Call A :=
  let (a, w1) := body w in
  match OwnedCudaGraph_dtor drv graph w1 with
  | Returned w2 => Completed a w2
  | Fatal msg w2 => Aborted msg w2
  end.

Definition Update_call (plat : Platform) (drv : Driver)
           (self : OwnedCudaGraphExec) (graph : OwnedCudaGraph)
  : World -> Call (Status * OwnedCudaGraphExec) :=
  consume_graph drv graph (Update plat drv self graph).

Definition InstantiateCudaGraph_call (drv : Driver) (graph : OwnedCudaGraph)
  : World -> Call (StatusOr OwnedCudaGraphExec) :=
  consume_graph drv graph (InstantiateCudaGraph drv graph).

Definition is_GraphDestroy (e : Event) : bool :=
  match e with
  | EvGraphDestroy _ => true
  | _ => false
  end.

(** ** More readings of the trace and of call sequences *)

Definition is_GraphExecDestroy (e : Event) : bool :=
  match e with
  | EvGraphExecDestroy _ => true
  | _ => false
  end.

Definition is_GraphDebugDotPrint (e : Event) : bool :=
  match e with
  | EvGraphDebugDotPrint _ _ => true
  | _ => false
  end.

Definition count_destroyed (calls : list RegistryCall) : Z :=
  Z.of_nat (length (filter (fun c => match c with CallDestroyed => true | _ => false end) calls)).

(** The handles a client holds carry distinct identities, all of them
    handed out already. *)
Definition lifecycle_ids_inv (c : Client) (w : World) : Prop :=
  allocated_cuda_graph_execs_ w = instantiated c
  /\ Forall (fun e => 0 <= id_ e < allocated_cuda_graph_execs_ w) (held c)
  /\ NoDup (map id_ (held c)).

(** A driver that reports a failed capture-status query. *)
Definition query_failing_driver : Driver :=
  mkDriver error_text
           (fun _ _ _ => 0) (fun _ _ => (0, 28672)) (fun _ _ _ => 0)
           (fun _ _ => (0, 4096)) (fun _ => 0) (fun _ _ _ => (0, 0))
           (fun _ _ _ => 0) (fun _ _ => 0) (fun _ _ => 0)
           (fun _ _ => 1).

(** A platform with the debug dump switched on and a directory set. *)
Definition dumping_platform : Platform :=
  mkPlatform 12000 (fun _ => true) (fun _ => Some "/tmp")
             (fun a b => a ++ b) (fun _ f suffix => Some (f ++ suffix)) (fun _ _ => true).

End CudaGraph.

(* ===================================================================== *)
(** * Properties of the type legalization *)
(* ===================================================================== *)

Section LegalizeTfTypesFacts.

Import LegalizeTfTypes.

Example ToLegalType_tensor_qint8 :
  ToLegalType (ShapedType RankedTensor (Some [2; 3]%Z) Qint8Type)
  = ShapedType RankedTensor (Some [2; 3]%Z) (IntegerType 8 Signless).
Proof. reflexivity. Qed.

Example ToLegalType_memref_of_tensor_quint16 :
  ToLegalType (ShapedType MemRef (Some [4]%Z) (ShapedType UnrankedTensor None Quint16Type))
  = ShapedType MemRef (Some [4]%Z) (ShapedType UnrankedTensor None (IntegerType 16 Unsigned)).
Proof. reflexivity. Qed.

Example ToLegalType_f32 : ToLegalType (OtherType "f32") = OtherType "f32".
Proof. reflexivity. Qed.

Lemma IsIllegalElementType_ToLegalElementType (t : Ty) :
  IsIllegalElementType (ToLegalElementType t) = false.
Proof. destruct t; reflexivity. Qed.

Lemma IsIllegalType_element (t : Ty) :
  IsIllegalElementType t = true -> IsIllegalType t = true.
Proof. destruct t; simpl; intros H; try discriminate H; reflexivity. Qed.

Lemma ToLegalType_shaped (k : ShapedKind) (sh : option (list Z)) (elem : Ty) :
  ToLegalType (ShapedType k sh elem)
  = ShapedType k sh (if IsIllegalType elem then ToLegalType elem else elem).
Proof.
  simpl. destruct (IsIllegalType elem); reflexivity.
Qed.

Lemma IsIllegalType_shaped (k : ShapedKind) (sh : option (list Z)) (elem : Ty) :
  IsIllegalType (ShapedType k sh elem) = IsIllegalElementType elem.
Proof. reflexivity. Qed.

(** After conversion no type is illegal, whatever its nesting. *)
Lemma IsIllegalType_ToLegalType (t : Ty) :
  IsIllegalType (ToLegalType t) = false.
Proof.
  destruct t as [ | | | | | w s | name | k sh elem ]; try reflexivity.
  rewrite ToLegalType_shaped, IsIllegalType_shaped.
  destruct (IsIllegalType elem) eqn:Hill.
  - destruct elem as [ | | | | | w s | name | k' sh' e' ]; try reflexivity.
    rewrite ToLegalType_shaped. reflexivity.
  - destruct elem; try reflexivity; discriminate Hill.
Qed.

Lemma ToLegalType_idempotent (t : Ty) :
  ToLegalType (ToLegalType t) = ToLegalType t.
Proof.
  destruct t as [ | | | | | w s | name | k sh elem ]; try reflexivity.
  rewrite !ToLegalType_shaped.
  destruct (IsIllegalType elem) eqn:Hill.
  - rewrite IsIllegalType_ToLegalType. reflexivity.
  - rewrite Hill. reflexivity.
Qed.

(** C10. For every type [t], [ToLegalType] sends [Qint8], [Qint16] and
    [Qint32] to the signless builtin integers of 8, 16 and 32 bits (the
    builtin form of TF's signed integers) and [Quint8], [Quint16] to the
    unsigned builtin integers of 8 and 16 bits, so width and unsignedness
    agree with the quantized type; a shaped type keeps its kind and shape
    and only its element type is converted; every other type is returned
    as it is. Consequently [ToLegalType] is idempotent and its result is
    never illegal. *)
Theorem C10_ToLegalType_legalizes (t : Ty) :
  ToLegalType t =
    match t with
    | Qint8Type => IntegerType 8 Signless
    | Qint16Type => IntegerType 16 Signless
    | Qint32Type => IntegerType 32 Signless
    | Quint8Type => IntegerType 8 Unsigned
    | Quint16Type => IntegerType 16 Unsigned
    | ShapedType k sh elem =>
        ShapedType k sh (if IsIllegalType elem then ToLegalType elem else elem)
    | IntegerType _ _ | OtherType _ => t
    end
  /\ Forall (fun q => getWidth (ToLegalType q) = quantized_width q
                      /\ isUnsigned (ToLegalType q) = quantized_unsigned q)
            [Qint8Type; Qint16Type; Qint32Type; Quint8Type; Quint16Type]
  /\ ToLegalType (ToLegalType t) = ToLegalType t
  /\ IsIllegalType (ToLegalType t) = false.
Proof.
  split; [ | split; [ | split ] ].
  - destruct t; try reflexivity. apply ToLegalType_shaped.
  - repeat constructor.
  - apply ToLegalType_idempotent.
  - apply IsIllegalType_ToLegalType.
Qed.

End LegalizeTfTypesFacts.

(* ===================================================================== *)
(** * Properties of the CUDA graph lifecycle *)
(* ===================================================================== *)

Import CudaGraph.
Local Open Scope string_scope.
Local Open Scope Z_scope.

#[local] Arguments String.append : simpl never.
#[local] Arguments StrFormat : simpl never.

(** Case analysis on a comparison with an error code. *)
Ltac by_code e c :=
  let H := fresh "Hcode" in
  destruct (Z.eqb_spec e c) as [H | H]; simpl; try congruence.

Section CaptureFacts.

Variable plat : Platform.
Variable drv : Driver.

(** C8. When begin-capture fails, [CaptureCudaGraph] returns an internal
    error made of the driver's message and does nothing else: the world
    it leaves is the one it found plus the begin-capture call, so the
    capture callback was not invoked, end-capture was not attempted, and
    no graph handle is returned. *)
Theorem C8_begin_capture_failure
        (stream : Stream) (capture : M Status) (mode : cudaStreamCaptureMode)
        (w : World) :
  let err := StreamBeginCapture_result drv w (AsGpuStreamValue stream) mode in
  err <> cudaSuccess ->
  CaptureCudaGraph plat drv stream capture mode w
  = (Error (InternalError ("stream begin capture failed: " ++ cudaGetErrorString drv err)),
     record (EvStreamBeginCapture (AsGpuStreamValue stream) mode) w)
  /\ trace (snd (CaptureCudaGraph plat drv stream capture mode w))
     = (trace w ++ [EvStreamBeginCapture (AsGpuStreamValue stream) mode])%list.
Proof.
  intros err Herr.
  assert (E : CaptureCudaGraph plat drv stream capture mode w
              = (Error (InternalError ("stream begin capture failed: "
                                         ++ cudaGetErrorString drv err)),
                 record (EvStreamBeginCapture (AsGpuStreamValue stream) mode) w)).
  { unfold CaptureCudaGraph, bind, cudaStreamBeginCapture, ret, StrFormat.
    fold err. by_code err cudaSuccess. }
  split; [ exact E | rewrite E; reflexivity ].
Qed.

Lemma CaptureCudaGraph_after_begin
      (stream : Stream) (capture : M Status) (mode : cudaStreamCaptureMode)
      (w : World) :
  StreamBeginCapture_result drv w (AsGpuStreamValue stream) mode = cudaSuccess ->
  CaptureCudaGraph plat drv stream capture mode w
  = let (captured, w2) := capture (world_at_capture stream mode w) in
    let (r, w3) := cudaStreamEndCapture drv (AsGpuStreamValue stream) w2 in
    let (err, graph) := r in
    if negb (err =? cudaSuccess)
    then (Error (InternalError ("stream end capture failed: "
                                  ++ cudaGetErrorString drv err)), w3)
    else if negb (ok captured)
    then (Error (InternalError ("failed to capture CUDA graph: "
                                  ++ message captured)), w3)
    else (debug_dot_print plat drv graph ;;; ret (Value (mkOwnedCudaGraph graph))) w3.
Proof.
  intros Hbegin.
  unfold CaptureCudaGraph, bind, cudaStreamBeginCapture, emit, ret, StrFormat,
    world_at_capture.
  rewrite Hbegin. simpl.
  destruct (capture _) as [captured w2].
  unfold cudaStreamEndCapture.
  destruct (StreamEndCapture_result drv w2 (AsGpuStreamValue stream)) as [err graph].
  destruct (negb (err =? cudaSuccess)); [ reflexivity | ].
  destruct (negb (ok captured)); reflexivity.
Qed.

(** C1, as the code has it. When begin-capture succeeds and the callback
    reports a failure, end-capture is still performed, right after the
    callback and before its result is looked at: the stream is Idle
    again and no graph handle is returned. The error returned is the
    callback's message wrapped as "failed to capture CUDA graph" when
    end-capture succeeds; when end-capture fails too, its own error is
    returned instead. *)
Theorem C1_callback_failure_unwinds_capture
        (stream : Stream) (capture : M Status) (mode : cudaStreamCaptureMode)
        (w : World) :
  StreamBeginCapture_result drv w (AsGpuStreamValue stream) mode = cudaSuccess ->
  ok (fst (capture (world_at_capture stream mode w))) = false ->
  let s := AsGpuStreamValue stream in
  let captured := fst (capture (world_at_capture stream mode w)) in
  let w2 := snd (capture (world_at_capture stream mode w)) in
  let end_err := fst (StreamEndCapture_result drv w2 s) in
  let r := CaptureCudaGraph plat drv stream capture mode w in
  snd r = record (EvStreamEndCapture s) (set_capture_state s Idle w2)
  /\ capture_state (snd r) s = Idle
  /\ fst r = Error (InternalError
                      (if end_err =? cudaSuccess
                       then "failed to capture CUDA graph: " ++ message captured
                       else "stream end capture failed: " ++ cudaGetErrorString drv end_err)).
Proof.
  intros Hbegin Hfail s captured w2 end_err r.
  subst r. rewrite (CaptureCudaGraph_after_begin _ _ _ _ Hbegin).
  subst captured w2 end_err s.
  destruct (capture (world_at_capture stream mode w)) as [captured w2].
  simpl in Hfail |- *.
  unfold cudaStreamEndCapture.
  destruct (StreamEndCapture_result drv w2 (AsGpuStreamValue stream)) as [err graph].
  simpl.
  assert (Hidle : (AsGpuStreamValue stream =? AsGpuStreamValue stream) = true)
    by apply Z.eqb_refl.
  by_code err cudaSuccess; rewrite ?Hfail; simpl; rewrite ?Hidle; auto.
Qed.

End CaptureFacts.

Lemma C8_begin_capture_failure_witness :
  StreamBeginCapture_result (fixed_driver 1 0 0 0 0 0) initial_world
                            (AsGpuStreamValue stream7) cudaStreamCaptureModeGlobal
  <> cudaSuccess
  /\ CaptureCudaGraph quiet_platform (fixed_driver 1 0 0 0 0 0) stream7
                      succeeding_capture cudaStreamCaptureModeGlobal initial_world
     = (Error (InternalError "stream begin capture failed: unspecified failure"),
        record (EvStreamBeginCapture 7 cudaStreamCaptureModeGlobal) initial_world).
Proof.
  split; [ discriminate | ].
  apply (C8_begin_capture_failure quiet_platform (fixed_driver 1 0 0 0 0 0) stream7
           succeeding_capture cudaStreamCaptureModeGlobal initial_world).
  discriminate.
Defined.

Lemma C1_callback_failure_unwinds_capture_witness :
  ok (fst (failing_capture (world_at_capture stream7 cudaStreamCaptureModeGlobal
                                             initial_world))) = false
  /\ capture_state
       (snd (CaptureCudaGraph quiet_platform healthy_driver stream7 failing_capture
                              cudaStreamCaptureModeGlobal initial_world)) 7 = Idle
  /\ fst (CaptureCudaGraph quiet_platform healthy_driver stream7 failing_capture
                           cudaStreamCaptureModeGlobal initial_world)
     = Error (InternalError "failed to capture CUDA graph: boom").
Proof.
  split; [ reflexivity | ].
  apply (C1_callback_failure_unwinds_capture quiet_platform healthy_driver stream7
           failing_capture cudaStreamCaptureModeGlobal initial_world eq_refl eq_refl).
Defined.

(** C1 as stated fails when end-capture fails as well: begin-capture
    succeeds, the callback reports "boom", end-capture answers 901, and
    the call returns the end-capture error, not the callback's failure. *)
Lemma C1_counterexample :
  StreamBeginCapture_result (fixed_driver 0 901 0 0 0 0) initial_world
                            (AsGpuStreamValue stream7) cudaStreamCaptureModeGlobal
  = cudaSuccess
  /\ fst (failing_capture (world_at_capture stream7 cudaStreamCaptureModeGlobal
                                            initial_world))
     = mkStatus kInvalidArgument "boom"
  /\ fst (CaptureCudaGraph quiet_platform (fixed_driver 0 901 0 0 0 0) stream7
                           failing_capture cudaStreamCaptureModeGlobal initial_world)
     = Error (InternalError
                "stream end capture failed: operation failed due to a previous error during capture")
  /\ fst (CaptureCudaGraph quiet_platform (fixed_driver 0 901 0 0 0 0) stream7
                           failing_capture cudaStreamCaptureModeGlobal initial_world)
     <> Error (InternalError "failed to capture CUDA graph: boom").
Proof.
  repeat split; try reflexivity.
  vm_compute. discriminate.
Qed.

Section HandleFacts.

Variable plat : Platform.
Variable drv : Driver.

Lemma wrap64_small (z : Z) : 0 <= z < 2 ^ 64 -> wrap64 z = z.
Proof. intros H. unfold wrap64. apply Z.mod_small. exact H. Qed.

(** One [Launch], in full. *)
Lemma Launch_eq (self : OwnedCudaGraphExec) (stream : Stream) (w : World) :
  let self1 := if VLOG_IS_ON plat 3
               then set_num_launches (wrap64 (num_launches_ self + 1)) self
               else self in
  let err := GraphLaunch_result drv w (exec_get self) (AsGpuStreamValue stream) in
  Launch plat drv self stream w
  = (if err =? cudaSuccess then OkStatus
     else InternalError (StrFormat "failed to run cuda graph: " (cudaGetErrorString drv err)),
     self1,
     record (EvGraphLaunch (exec_get self) (AsGpuStreamValue stream)) w).
Proof.
  intros self1 err.
  unfold Launch, bind, cudaGraphLaunch, ret. fold self1.
  assert (Hget : exec_get self1 = exec_get self)
    by (subst self1; destruct (VLOG_IS_ON plat 3); reflexivity).
  rewrite Hget. fold err.
  destruct (err =? cudaSuccess); reflexivity.
Qed.

Lemma wrap64_succ_add (z : Z) (n : nat) :
  wrap64 (wrap64 (z + 1) + Z.of_nat n) = wrap64 (z + Z.of_nat (S n)).
Proof.
  unfold wrap64. rewrite Zplus_mod_idemp_l. f_equal. lia.
Qed.

Lemma Launch_times_num_launches (n : nat) :
  forall (self : OwnedCudaGraphExec) (stream : Stream) (w : World),
    VLOG_IS_ON plat 3 = true ->
    0 <= num_launches_ self < 2 ^ 64 ->
    num_launches_ (snd (fst (Launch_times plat drv n self stream w)))
    = wrap64 (num_launches_ self + Z.of_nat n).
Proof.
  induction n as [ | n IH ]; intros self stream w Hlog Hrange.
  - simpl. rewrite Z.add_0_r. symmetry. apply wrap64_small. exact Hrange.
  - cbn [Launch_times]. unfold bind at 1. rewrite Launch_eq. rewrite Hlog.
    unfold bind, ret.
    set (self1 := set_num_launches (wrap64 (num_launches_ self + 1)) self).
    set (w1 := record _ w).
    specialize (IH self1 stream w1 Hlog).
    destruct (Launch_times plat drv n self1 stream w1) as [[sts self2] w2].
    cbn [fst snd] in *. rewrite IH.
    + subst self1. cbn [num_launches_ set_num_launches]. apply wrap64_succ_add.
    + subst self1. cbn [num_launches_ set_num_launches]. unfold wrap64.
      apply Z.mod_pos_bound. lia.
Qed.

(** C2, as the code has it. When the launch log statement is evaluated
    (verbose level 3 is on), every call of [Launch] increments the launch
    counter by exactly 1 before the native launch is attempted, whether
    that launch then succeeds or fails, and changes nothing else in the
    handle; the call returns OK when the native launch succeeds and an
    internal error carrying the driver's message when it fails. After 3
    such calls on a fresh handle the counter reads exactly 3. *)
Theorem C2_launch_counts_every_attempt
        (self : OwnedCudaGraphExec) (stream : Stream) (w : World) :
  VLOG_IS_ON plat 3 = true ->
  0 <= num_launches_ self < 2 ^ 64 - 1 ->
  let err := GraphLaunch_result drv w (exec_get self) (AsGpuStreamValue stream) in
  Launch plat drv self stream w
  = (if err =? cudaSuccess then OkStatus
     else InternalError (StrFormat "failed to run cuda graph: " (cudaGetErrorString drv err)),
     set_num_launches (num_launches_ self + 1) self,
     record (EvGraphLaunch (exec_get self) (AsGpuStreamValue stream)) w)
  /\ num_launches_
       (snd (fst (Launch_times plat drv 3 (set_num_launches 0 self) stream w))) = 3.
Proof.
  intros Hlog Hrange err. split.
  - rewrite Launch_eq, Hlog. fold err.
    rewrite wrap64_small by lia. reflexivity.
  - rewrite Launch_times_num_launches; try assumption; try reflexivity.
    cbn [num_launches_ set_num_launches]. lia.
Qed.

(** One [Update], in full. *)
Lemma Update_eq (self : OwnedCudaGraphExec) (graph : OwnedCudaGraph) (w : World) :
  let r := GraphExecUpdate_result drv w (exec_get self) (graph_get graph) in
  Update plat drv self graph w
  = (if (fst r =? cudaSuccess) && (snd r =? cudaGraphExecUpdateSuccess)
     then OkStatus
     else InternalError
            (if 12000 <=? CUDA_VERSION plat
             then StrFormat "failed to update cuda graph: " (cudaGetErrorString drv (fst r))
             else StrFormat "Failed to update cuda graph " (cudaGetErrorString drv (fst r))),
     mkOwnedCudaGraphExec
       (exec_get self) (id_ self)
       (if VLOG_IS_ON plat 3 then wrap64 (num_updates_ self + 1) else num_updates_ self)
       0,
     record (EvGraphExecUpdate (exec_get self) (graph_get graph)) w).
Proof.
  intros r. unfold Update, bind, cudaGraphExecUpdate, ret.
  assert (Hget : exec_get
                   (set_num_launches 0
                      (if VLOG_IS_ON plat 3
                       then set_num_updates (wrap64 (num_updates_ self + 1)) self
                       else self)) = exec_get self)
    by (destruct (VLOG_IS_ON plat 3); reflexivity).
  rewrite Hget. fold r. destruct r as [err updated]. cbn [fst snd].
  destruct (err =? cudaSuccess), (updated =? cudaGraphExecUpdateSuccess);
    destruct (VLOG_IS_ON plat 3); reflexivity.
Qed.

(** C3, as the code has it. Every call of [Update] resets the launch
    counter to 0 before the native update is attempted, whether that
    update then succeeds or fails, and keeps the executable and its
    identity; when the update log statement is evaluated (verbose level 3
    is on) the update counter is incremented by exactly 1, again before
    the native call and whatever its outcome. The call returns OK when
    the driver reports success for both the call and the update result,
    and otherwise an internal error, never a resource-exhaustion one. *)
Theorem C3_update_resets_before_native_call
        (self : OwnedCudaGraphExec) (graph : OwnedCudaGraph) (w : World) :
  let r := GraphExecUpdate_result drv w (exec_get self) (graph_get graph) in
  let st := fst (fst (Update plat drv self graph w)) in
  let self' := snd (fst (Update plat drv self graph w)) in
  (num_launches_ self' = 0
   /\ exec_get self' = exec_get self
   /\ id_ self' = id_ self)
  /\ (VLOG_IS_ON plat 3 = true ->
      0 <= num_updates_ self < 2 ^ 64 - 1 ->
      num_updates_ self' = num_updates_ self + 1)
  /\ code st = (if (fst r =? cudaSuccess) && (snd r =? cudaGraphExecUpdateSuccess)
                then kOk else kInternal)
  /\ code st <> kResourceExhausted.
Proof.
  intros r st self'. subst st self'.
  rewrite Update_eq. fold r. cbn [fst snd].
  split; [ repeat split | ].
  split.
  - intros Hlog Hrange. cbn [num_updates_]. rewrite Hlog.
    apply wrap64_small. lia.
  - destruct ((fst r =? cudaSuccess) && (snd r =? cudaGraphExecUpdateSuccess));
      split; try reflexivity; discriminate.
Qed.

(** One [InstantiateCudaGraph] whose native call fails, in full. *)
Lemma InstantiateCudaGraph_failure (graph : OwnedCudaGraph) (w : World) :
  let err := fst (GraphInstantiate_result drv w (graph_get graph)) in
  let w1 := record (EvGraphInstantiate (graph_get graph)) w in
  err <> cudaSuccess ->
  InstantiateCudaGraph drv graph w
  = if err =? cudaErrorMemoryAllocation
    then (Error (ResourceExhaustedError
                   (StrFormat "graph instantiation failed: "
                              (cudaGetErrorString drv (GetLastError_result drv w1)))),
          record EvGetLastError w1)
    else (Error (InternalError
                   (StrFormat "graph instantiation failed: "
                              (cudaGetErrorString drv err))),
          w1).
Proof.
  intros err w1 Herr.
  unfold InstantiateCudaGraph, bind, cudaGraphInstantiate, cudaGetLastError, ret.
  subst err. destruct (GraphInstantiate_result drv w (graph_get graph)) as [err exec].
  cbn [fst] in *. fold w1.
  by_code err cudaSuccess.
  destruct (err =? cudaErrorMemoryAllocation); reflexivity.
Qed.

(** C4. When the native instantiation fails with the memory-allocation
    error code, [InstantiateCudaGraph] returns a resource-exhausted
    error; when it fails with any other code, it returns an internal
    error; the two status codes differ. In both cases no executable
    handle is returned, the two lifecycle counters keep their values and
    [NotifyGraphExecCreated] is not called. *)
Theorem C4_instantiate_failure_classes (graph : OwnedCudaGraph) (w : World) :
  let err := fst (GraphInstantiate_result drv w (graph_get graph)) in
  let r := InstantiateCudaGraph drv graph w in
  err <> cudaSuccess ->
  (exists st : Status,
      fst r = Error st
      /\ code st = (if err =? cudaErrorMemoryAllocation
                    then kResourceExhausted else kInternal))
  /\ kResourceExhausted <> kInternal
  /\ allocated_cuda_graph_execs_ (snd r) = allocated_cuda_graph_execs_ w
  /\ alive_cuda_graph_execs_ (snd r) = alive_cuda_graph_execs_ w
  /\ calls is_NotifyGraphExecCreated (snd r) = calls is_NotifyGraphExecCreated w.
Proof.
  intros err r Herr. subst r.
  rewrite (InstantiateCudaGraph_failure graph w Herr). fold err.
  assert (Hcalls : forall e, is_NotifyGraphExecCreated e = false ->
                             forall w0, calls is_NotifyGraphExecCreated (record e w0)
                                        = calls is_NotifyGraphExecCreated w0).
  { intros e He w0. unfold calls, record. cbn [trace].
    rewrite filter_app. cbn [filter]. rewrite He, app_nil_r. reflexivity. }
  destruct (err =? cudaErrorMemoryAllocation); cbn [fst snd].
  - split; [ eexists; split; reflexivity | ].
    split; [ discriminate | ].
    rewrite !Hcalls by reflexivity. auto.
  - split; [ eexists; split; reflexivity | ].
    split; [ discriminate | ].
    rewrite !Hcalls by reflexivity. auto.
Qed.

(** C9. The release action of a graph and the release action of an
    executable call the native destroy and then check its result: when
    the driver reports a failure the process is terminated by a fatal
    check whose message carries the driver's error string, and the
    action returns only when the destroy succeeded. The destructors of
    handles that are not empty end in exactly that release action, so a
    failed release is never passed over. *)
Theorem C9_failed_release_is_fatal
        (g : OwnedCudaGraph) (e : OwnedCudaGraphExec) (w : World) :
  let w0 := snd (OwnedCudaGraphExec_dtor_body plat e w) in
  let gerr := GraphDestroy_result drv w (graph_get g) in
  let eerr := GraphExecDestroy_result drv w0 (exec_get e) in
  graph_bool g = true ->
  exec_bool e = true ->
  DestroyGraph drv (graph_get g) w
  = (if gerr =? cudaSuccess
     then Returned (record (EvGraphDestroy (graph_get g)) w)
     else Fatal ("Failed to destroy CUDA graph: " ++ cudaGetErrorString drv gerr)
                (record (EvGraphDestroy (graph_get g)) w))
  /\ DestroyGraphExec drv (exec_get e) w0
     = (if eerr =? cudaSuccess
        then Returned (record (EvGraphExecDestroy (exec_get e)) w0)
        else Fatal ("Failed to destroy CUDA graph instance: "
                      ++ cudaGetErrorString drv eerr)
                   (record (EvGraphExecDestroy (exec_get e)) w0))
  /\ OwnedCudaGraph_dtor drv g w = DestroyGraph drv (graph_get g) w
  /\ OwnedCudaGraphExec_dtor plat drv e w = DestroyGraphExec drv (exec_get e) w0.
Proof.
  intros w0 gerr eerr Hg He.
  split; [ reflexivity | ].
  split; [ reflexivity | ].
  split.
  - unfold OwnedCudaGraph_dtor. rewrite Hg. reflexivity.
  - unfold OwnedCudaGraphExec_dtor. subst w0.
    destruct (OwnedCudaGraphExec_dtor_body plat e w) as [u w0].
    rewrite He. reflexivity.
Qed.

(** A destructor run on a moved-from handle leaves the world as it is:
    no native destroy, no notification. *)
Lemma moved_from_graph_dtor (g : OwnedCudaGraph) (w : World) :
  OwnedCudaGraph_dtor drv (graph_moved_from g) w = Returned w.
Proof. reflexivity. Qed.

Lemma moved_from_exec_dtor (e : OwnedCudaGraphExec) (w : World) :
  OwnedCudaGraphExec_dtor plat drv (exec_moved_from e) w = Returned w.
Proof. reflexivity. Qed.

Lemma calls_record (p : Event -> bool) (e : Event) (w : World) :
  calls p (record e w) = (calls p w + (if p e then 1 else 0))%nat.
Proof.
  unfold calls, record. cbn [trace]. rewrite filter_app, length_app.
  cbn [filter]. destruct (p e); reflexivity.
Qed.

Lemma calls_set_alive (p : Event -> bool) (n : Z) (w : World) :
  calls p (set_alive n w) = calls p w.
Proof. reflexivity. Qed.

Lemma calls_set_allocated (p : Event -> bool) (n : Z) (w : World) :
  calls p (set_allocated n w) = calls p w.
Proof. reflexivity. Qed.

(** With verbose level 5 on, the destructor of a handle that is not
    empty notifies the registry exactly once and decrements [alive]. *)
Lemma exec_dtor_notifies_when_logged (e : OwnedCudaGraphExec) (w : World) :
  VLOG_IS_ON plat 5 = true ->
  exec_bool e = true ->
  let w' := outcome_world (OwnedCudaGraphExec_dtor plat drv e w) in
  calls is_NotifyGraphExecDestroyed w' = S (calls is_NotifyGraphExecDestroyed w)
  /\ alive_cuda_graph_execs_ w' = wrap64 (alive_cuda_graph_execs_ w - 1)
  /\ allocated_cuda_graph_execs_ w' = allocated_cuda_graph_execs_ w.
Proof.
  intros Hlog He w'. subst w'.
  unfold OwnedCudaGraphExec_dtor, OwnedCudaGraphExec_dtor_body.
  rewrite He, Hlog.
  unfold NotifyGraphExecDestroyed, bind, emit, alive_fetch_sub, ret,
    DestroyGraphExec, cudaGraphExecDestroy, CHECK.
  match goal with
  | |- context [ if ?c then Returned ?a else Fatal ?m ?b ] =>
      assert (Hw : outcome_world (if c then Returned a else Fatal m b) = a)
        by (destruct c; reflexivity);
      rewrite Hw; clear Hw
  end.
  rewrite calls_record, calls_set_alive, calls_record.
  cbn. repeat split; lia.
Qed.

(** Without verbose level 5 the same destructor only releases the native
    resource: the registry is neither notified nor changed. *)
Lemma exec_dtor_silent_when_not_logged (e : OwnedCudaGraphExec) (w : World) :
  VLOG_IS_ON plat 5 = false ->
  let w' := outcome_world (OwnedCudaGraphExec_dtor plat drv e w) in
  calls is_NotifyGraphExecDestroyed w' = calls is_NotifyGraphExecDestroyed w
  /\ alive_cuda_graph_execs_ w' = alive_cuda_graph_execs_ w
  /\ allocated_cuda_graph_execs_ w' = allocated_cuda_graph_execs_ w.
Proof.
  intros Hlog w'. subst w'.
  unfold OwnedCudaGraphExec_dtor, OwnedCudaGraphExec_dtor_body.
  rewrite Hlog.
  destruct (exec_bool e); unfold ret.
  - unfold DestroyGraphExec, cudaGraphExecDestroy, CHECK.
    match goal with
    | |- context [ if ?c then Returned ?a else Fatal ?m ?b ] =>
        assert (Hw : outcome_world (if c then Returned a else Fatal m b) = a)
          by (destruct c; reflexivity);
        rewrite Hw; clear Hw
    end.
    rewrite calls_record. cbn. repeat split; lia.
  - cbn. repeat split.
Qed.

End HandleFacts.

Section RegistryFacts.

Lemma NotifyGraphExecCreated_eq (w : World) :
  NotifyGraphExecCreated w
  = (allocated_cuda_graph_execs_ w,
     mkWorld (capture_state w)
             (wrap64 (allocated_cuda_graph_execs_ w + 1))
             (wrap64 (alive_cuda_graph_execs_ w + 1))
             (trace w ++ [EvNotifyGraphExecCreated])).
Proof. reflexivity. Qed.

Lemma NotifyGraphExecDestroyed_eq (w : World) :
  NotifyGraphExecDestroyed w
  = (wrap64 (alive_cuda_graph_execs_ w - 1),
     mkWorld (capture_state w)
             (allocated_cuda_graph_execs_ w)
             (wrap64 (alive_cuda_graph_execs_ w - 1))
             (trace w ++ [EvNotifyGraphExecDestroyed])).
Proof. reflexivity. Qed.

Lemma consecutive_from_lower (n : nat) :
  forall a x, In x (consecutive_from a n) -> a <= x.
Proof.
  induction n as [ | n IH ]; intros a x Hin; simpl in Hin; [ contradiction | ].
  destruct Hin as [<- | Hin]; [ lia | ].
  apply IH in Hin. lia.
Qed.

Lemma consecutive_from_sorted (n : nat) :
  forall a, StronglySorted Z.lt (consecutive_from a n).
Proof.
  induction n as [ | n IH ]; intros a; simpl; constructor.
  - apply IH.
  - apply Forall_forall. intros x Hin. apply consecutive_from_lower in Hin. lia.
Qed.

Lemma consecutive_from_NoDup (n : nat) :
  forall a, NoDup (consecutive_from a n).
Proof.
  induction n as [ | n IH ]; intros a; simpl; constructor.
  - intros Hin. apply consecutive_from_lower in Hin. lia.
  - apply IH.
Qed.

Lemma count_created_cons_created (calls : list RegistryCall) :
  count_created (CallCreated :: calls) = count_created calls + 1.
Proof. unfold count_created. cbn [filter length]. lia. Qed.

Lemma count_created_nonneg (calls : list RegistryCall) : 0 <= count_created calls.
Proof. unfold count_created. lia. Qed.

(** The identities handed out are the consecutive values of [allocated],
    whatever destructions are notified in between. *)
Lemma registry_calls_ids (calls : list RegistryCall) :
  forall w : World,
    0 <= allocated_cuda_graph_execs_ w ->
    allocated_cuda_graph_execs_ w + count_created calls < 2 ^ 64 ->
    fst (registry_calls calls w)
    = consecutive_from (allocated_cuda_graph_execs_ w)
                       (Z.to_nat (count_created calls)).
Proof.
  induction calls as [ | [ | ] calls IH ]; intros w Hlo Hhi.
  - reflexivity.
  - rewrite count_created_cons_created in *.
    pose proof (count_created_nonneg calls) as Hn.
    cbn [registry_calls]. unfold bind at 1. rewrite NotifyGraphExecCreated_eq.
    unfold bind, ret.
    set (w1 := mkWorld _ _ _ _).
    specialize (IH w1).
    destruct (registry_calls calls w1) as [ids w2]. cbn [fst] in *.
    replace (Z.to_nat (count_created calls + 1)) with (S (Z.to_nat (count_created calls)))
      by lia.
    cbn [consecutive_from]. f_equal.
    subst w1. cbn [allocated_cuda_graph_execs_] in IH.
    rewrite wrap64_small in IH by lia.
    apply IH; lia.
  - cbn [registry_calls]. unfold bind. rewrite NotifyGraphExecDestroyed_eq.
    set (w1 := mkWorld _ _ _ _).
    change (allocated_cuda_graph_execs_ w) with (allocated_cuda_graph_execs_ w1).
    change (count_created (CallDestroyed :: calls)) with (count_created calls) in *.
    apply IH; assumption.
Qed.

(** C5. [NotifyGraphExecCreated] adds 1 to both counters (in 64-bit
    arithmetic) and returns the value [allocated] held before;
    [NotifyGraphExecDestroyed] subtracts 1 from [alive], leaves
    [allocated] alone and returns the value [alive] holds afterwards.
    Hence, as long as the 64-bit [allocated] counter does not wrap, the
    identities returned by successive calls of [NotifyGraphExecCreated],
    with any destructions notified in between, are the consecutive
    values of [allocated]: strictly increasing in call order and
    pairwise distinct. *)
Theorem C5_registry_notifications (calls : list RegistryCall) (w : World) :
  0 <= allocated_cuda_graph_execs_ w ->
  allocated_cuda_graph_execs_ w + count_created calls < 2 ^ 64 ->
  let created := NotifyGraphExecCreated w in
  let destroyed := NotifyGraphExecDestroyed w in
  let ids := fst (registry_calls calls w) in
  (fst created = allocated_cuda_graph_execs_ w
   /\ allocated_cuda_graph_execs_ (snd created)
      = wrap64 (allocated_cuda_graph_execs_ w + 1)
   /\ alive_cuda_graph_execs_ (snd created)
      = wrap64 (alive_cuda_graph_execs_ w + 1))
  /\ (alive_cuda_graph_execs_ (snd destroyed) = wrap64 (alive_cuda_graph_execs_ w - 1)
      /\ allocated_cuda_graph_execs_ (snd destroyed) = allocated_cuda_graph_execs_ w
      /\ fst destroyed = alive_cuda_graph_execs_ (snd destroyed))
  /\ (ids = consecutive_from (allocated_cuda_graph_execs_ w)
                             (Z.to_nat (count_created calls))
      /\ StronglySorted Z.lt ids
      /\ NoDup ids).
Proof.
  intros Hlo Hhi created destroyed ids.
  subst created destroyed ids.
  rewrite NotifyGraphExecCreated_eq, NotifyGraphExecDestroyed_eq.
  cbn [fst snd allocated_cuda_graph_execs_ alive_cuda_graph_execs_].
  split; [ | split ].
  - repeat split.
  - repeat split.
  - rewrite registry_calls_ids by assumption.
    split; [ reflexivity | ].
    split; [ apply consecutive_from_sorted | apply consecutive_from_NoDup ].
Qed.

End RegistryFacts.

Section LifecycleFacts.

Variable plat : Platform.
Variable drv : Driver.

Lemma InstantiateCudaGraph_success (graph : OwnedCudaGraph) (w : World) :
  let r := GraphInstantiate_result drv w (graph_get graph) in
  let w1 := record (EvGraphInstantiate (graph_get graph)) w in
  fst r = cudaSuccess ->
  InstantiateCudaGraph drv graph w
  = (Value (new_OwnedCudaGraphExec (allocated_cuda_graph_execs_ w) (snd r)),
     snd (NotifyGraphExecCreated w1)).
Proof.
  intros r w1 Hok.
  unfold InstantiateCudaGraph, bind, cudaGraphInstantiate, ret.
  subst r. destruct (GraphInstantiate_result drv w (graph_get graph)) as [err exec].
  cbn [fst snd] in *. subst err. fold w1. reflexivity.
Qed.

Lemma count_nonempty_nonneg (l : list OwnedCudaGraphExec) : 0 <= count_nonempty l.
Proof. unfold count_nonempty. lia. Qed.

Lemma count_nonempty_cons (e : OwnedCudaGraphExec) (l : list OwnedCudaGraphExec) :
  count_nonempty (e :: l) = (if exec_bool e then 1 else 0) + count_nonempty l.
Proof.
  unfold count_nonempty. cbn [filter]. destruct (exec_bool e); cbn [length]; lia.
Qed.

Lemma count_nonempty_snoc (l : list OwnedCudaGraphExec) (e : OwnedCudaGraphExec) :
  count_nonempty (l ++ [e]) = count_nonempty l + (if exec_bool e then 1 else 0).
Proof.
  unfold count_nonempty. rewrite filter_app, length_app. cbn [filter].
  destruct (exec_bool e); cbn [length]; lia.
Qed.

Lemma count_nonempty_remove_nth (l : list OwnedCudaGraphExec) :
  forall (k : nat) (e : OwnedCudaGraphExec),
    nth_error l k = Some e ->
    count_nonempty (remove_nth k l)
    = count_nonempty l - (if exec_bool e then 1 else 0).
Proof.
  induction l as [ | h t IH ]; intros [ | k ] e Hnth; cbn in Hnth; try discriminate.
  - injection Hnth as ->. cbn [remove_nth]. rewrite count_nonempty_cons. lia.
  - cbn [remove_nth]. rewrite !count_nonempty_cons, (IH k e Hnth). lia.
Qed.

Hypothesis Hlog : VLOG_IS_ON plat 5 = true.

Lemma empty_exec_dtor (e : OwnedCudaGraphExec) (w : World) :
  exec_bool e = false -> OwnedCudaGraphExec_dtor plat drv e w = Returned w.
Proof.
  intros He. unfold OwnedCudaGraphExec_dtor, OwnedCudaGraphExec_dtor_body.
  rewrite He. reflexivity.
Qed.

Lemma nth_error_count_nonempty (l : list OwnedCudaGraphExec) :
  forall (k : nat) (e : OwnedCudaGraphExec),
    nth_error l k = Some e -> exec_bool e = true -> 1 <= count_nonempty l.
Proof.
  intros k e Hnth He.
  pose proof (count_nonempty_remove_nth l k Hnth) as H.
  pose proof (count_nonempty_nonneg (remove_nth k l)) as H0.
  rewrite He in H. lia.
Qed.

Lemma lifecycle_step_inv (op : LifecycleOp) (c c' : Client) (w w' : World) :
  lifecycle_inv c w ->
  0 <= instantiated c ->
  instantiated c + count_instantiate [op] < 2 ^ 64 ->
  lifecycle_step plat drv op c w = Some (c', w') ->
  lifecycle_inv c' w'
  /\ instantiated c <= instantiated c' <= instantiated c + count_instantiate [op].
Proof.
  intros (Halloc & Halive & Hheld & Hdes) Hlo Hhi Hstep.
  pose proof (count_nonempty_nonneg (held c)) as Hnn.
  destruct op as [graph | k]; unfold lifecycle_step in Hstep.
  - change (count_instantiate [OpInstantiate graph]) with 1 in *.
    destruct (Z.eqb_spec (fst (GraphInstantiate_result drv w (graph_get graph)))
                         cudaSuccess) as [Hok | Hfail].
    + rewrite (InstantiateCudaGraph_success graph w Hok) in Hstep.
      rewrite NotifyGraphExecCreated_eq in Hstep. cbn [snd] in Hstep.
      injection Hstep as <- <-.
      unfold lifecycle_inv.
      cbn [held instantiated destroyed allocated_cuda_graph_execs_
           alive_cuda_graph_execs_ record].
      rewrite count_nonempty_snoc, !wrap64_small by lia.
      destruct (exec_bool _); lia.
    + rewrite (InstantiateCudaGraph_failure drv graph w Hfail) in Hstep.
      destruct (_ =? cudaErrorMemoryAllocation); injection Hstep as <- <-;
        unfold lifecycle_inv; cbn; lia.
  - change (count_instantiate [OpDestroy k]) with 0 in *.
    destruct (nth_error (held c) k) as [e | ] eqn:Hnth; [ | discriminate ].
    destruct (exec_bool e) eqn:He.
    + pose proof (exec_dtor_notifies_when_logged plat drv e w Hlog He)
        as (_ & Hal & Hall).
      destruct (OwnedCudaGraphExec_dtor plat drv e w) as [w1 | msg w1];
        [ | discriminate ].
      injection Hstep as <- <-. cbn [outcome_world] in Hal, Hall.
      pose proof (nth_error_count_nonempty _ _ Hnth He) as Hone.
      unfold lifecycle_inv. cbn [held instantiated destroyed].
      rewrite (count_nonempty_remove_nth _ _ Hnth), He, Hal, Hall.
      rewrite wrap64_small by lia. lia.
    + rewrite (empty_exec_dtor e w He) in Hstep.
      injection Hstep as <- <-.
      unfold lifecycle_inv. cbn [held instantiated destroyed].
      rewrite (count_nonempty_remove_nth _ _ Hnth), He. lia.
Qed.

Lemma count_instantiate_cons (op : LifecycleOp) (ops : list LifecycleOp) :
  count_instantiate (op :: ops) = count_instantiate [op] + count_instantiate ops.
Proof.
  unfold count_instantiate. cbn [filter]. destruct op; cbn [length]; lia.
Qed.

Lemma count_instantiate_nonneg (ops : list LifecycleOp) : 0 <= count_instantiate ops.
Proof. unfold count_instantiate. lia. Qed.

Lemma lifecycle_run_inv (ops : list LifecycleOp) :
  forall (c c' : Client) (w w' : World),
    lifecycle_inv c w ->
    0 <= instantiated c ->
    instantiated c + count_instantiate ops < 2 ^ 64 ->
    lifecycle_run plat drv ops c w = Some (c', w') ->
    lifecycle_inv c' w' /\ instantiated c <= instantiated c'.
Proof.
  induction ops as [ | op ops IH ]; intros c c' w w' Hinv Hlo Hhi Hrun.
  - injection Hrun as <- <-. split; [ assumption | lia ].
  - cbn [lifecycle_run] in Hrun.
    rewrite count_instantiate_cons in Hhi.
    pose proof (count_instantiate_nonneg ops) as Hn.
    pose proof (count_instantiate_nonneg [op]) as Hn1.
    destruct (lifecycle_step plat drv op c w) as [[c1 w1] | ] eqn:Hstep;
      [ | discriminate ].
    apply lifecycle_step_inv in Hstep; try assumption; try lia.
    destruct Hstep as (Hinv1 & Hle1).
    apply IH in Hrun; try assumption; try lia.
    destruct Hrun as (Hinv' & Hle'). split; [ assumption | lia ].
Qed.

(** With verbose level 5 on, the counters follow the client: after any
    run from the initial state, [allocated] is the number of successful
    instantiations, [alive] that number minus the destructions of
    non-empty handles, and [0 <= alive <= allocated]. Every prefix of a
    run is a run, so this holds at every intermediate state too. *)
Lemma lifecycle_counts_when_logged
      (ops : list LifecycleOp) (c' : Client) (w' : World) :
  count_instantiate ops < 2 ^ 64 ->
  lifecycle_run plat drv ops new_client initial_world = Some (c', w') ->
  allocated_cuda_graph_execs_ w' = instantiated c'
  /\ alive_cuda_graph_execs_ w' = instantiated c' - destroyed c'
  /\ 0 <= alive_cuda_graph_execs_ w' <= allocated_cuda_graph_execs_ w'.
Proof.
  intros Hhi Hrun.
  apply lifecycle_run_inv in Hrun.
  - destruct Hrun as ((Halloc & Halive & Hheld & Hdes) & _).
    pose proof (count_nonempty_nonneg (held c')). lia.
  - unfold lifecycle_inv. cbn. lia.
  - cbn. lia.
  - cbn [instantiated new_client]. lia.
Qed.

End LifecycleFacts.

(* ===================================================================== *)
(** * Concrete runs *)
(* ===================================================================== *)

Lemma C2_launch_counts_every_attempt_witness :
  VLOG_IS_ON verbose_platform 3 = true
  /\ 0 <= num_launches_ (new_OwnedCudaGraphExec 0 4096) < 2 ^ 64 - 1
  /\ Launch verbose_platform healthy_driver (new_OwnedCudaGraphExec 0 4096) stream7
            initial_world
     = (OkStatus, mkOwnedCudaGraphExec 4096 0 0 1,
        record (EvGraphLaunch 4096 7) initial_world)
  /\ num_launches_
       (snd (fst (Launch_times verbose_platform healthy_driver 3
                               (set_num_launches 0 (new_OwnedCudaGraphExec 0 4096))
                               stream7 initial_world))) = 3.
Proof.
  split; [ reflexivity | ].
  split; [ cbn; lia | ].
  apply (C2_launch_counts_every_attempt verbose_platform healthy_driver
           (new_OwnedCudaGraphExec 0 4096) stream7 initial_world).
  - reflexivity.
  - cbn; lia.
Defined.

(** C2 as stated fails on a failed launch: with verbose level 3 on, a
    launch the driver rejects returns an internal error and still moves
    the launch counter from 0 to 1. *)
Lemma C2_counterexample :
  GraphLaunch_result (fixed_driver 0 0 0 0 719 0) initial_world 4096 7 <> cudaSuccess
  /\ fst (fst (Launch verbose_platform (fixed_driver 0 0 0 0 719 0)
                      (new_OwnedCudaGraphExec 0 4096) stream7 initial_world))
     = InternalError "failed to run cuda graph: unspecified failure"
  /\ num_launches_ (new_OwnedCudaGraphExec 0 4096) = 0
  /\ num_launches_
       (snd (fst (Launch verbose_platform (fixed_driver 0 0 0 0 719 0)
                         (new_OwnedCudaGraphExec 0 4096) stream7 initial_world))) = 1.
Proof.
  split; [ discriminate | ]. repeat split.
Qed.

Lemma C3_update_resets_before_native_call_witness :
  VLOG_IS_ON verbose_platform 3 = true
  /\ 0 <= num_updates_ (mkOwnedCudaGraphExec 4096 0 0 5) < 2 ^ 64 - 1
  /\ num_launches_
       (snd (fst (Update verbose_platform healthy_driver
                         (mkOwnedCudaGraphExec 4096 0 0 5)
                         (mkOwnedCudaGraph 28672) initial_world))) = 0
  /\ num_updates_
       (snd (fst (Update verbose_platform healthy_driver
                         (mkOwnedCudaGraphExec 4096 0 0 5)
                         (mkOwnedCudaGraph 28672) initial_world))) = 0 + 1
  /\ code (fst (fst (Update verbose_platform healthy_driver
                            (mkOwnedCudaGraphExec 4096 0 0 5)
                            (mkOwnedCudaGraph 28672) initial_world))) = kOk.
Proof.
  split; [ reflexivity | ].
  split; [ cbn; lia | ].
  destruct (C3_update_resets_before_native_call verbose_platform healthy_driver
              (mkOwnedCudaGraphExec 4096 0 0 5) (mkOwnedCudaGraph 28672)
              initial_world) as ((Hlaunches & _ & _) & Hupdates & Hcode & _).
  split; [ exact Hlaunches | ].
  split; [ apply Hupdates; [ reflexivity | cbn; lia ] | exact Hcode ].
Defined.

(** C3 as stated fails on a failed update. With verbose level 3 on, a
    fresh handle is launched 5 times, so that its launch counter reads 5
    and its update counter 0; the driver then rejects the update. The
    call returns an internal error, and all the same the launch counter
    is back to 0 and the update counter has moved to 1. *)
Lemma C3_counterexample :
  snd (fst (Launch_times verbose_platform (fixed_driver 0 0 0 1 0 0) 5
                         (new_OwnedCudaGraphExec 0 4096) stream7 initial_world))
  = mkOwnedCudaGraphExec 4096 0 0 5
  /\ GraphExecUpdate_result
       (fixed_driver 0 0 0 1 0 0)
       (snd (Launch_times verbose_platform (fixed_driver 0 0 0 1 0 0) 5
                          (new_OwnedCudaGraphExec 0 4096) stream7 initial_world))
       4096 28672 = (1, 1)
  /\ fst (fst (Update verbose_platform (fixed_driver 0 0 0 1 0 0)
                      (snd (fst (Launch_times verbose_platform
                                              (fixed_driver 0 0 0 1 0 0) 5
                                              (new_OwnedCudaGraphExec 0 4096)
                                              stream7 initial_world)))
                      (mkOwnedCudaGraph 28672)
                      (snd (Launch_times verbose_platform (fixed_driver 0 0 0 1 0 0) 5
                                         (new_OwnedCudaGraphExec 0 4096) stream7
                                         initial_world))))
     = InternalError "failed to update cuda graph: unspecified failure"
  /\ snd (fst (Update verbose_platform (fixed_driver 0 0 0 1 0 0)
                      (snd (fst (Launch_times verbose_platform
                                              (fixed_driver 0 0 0 1 0 0) 5
                                              (new_OwnedCudaGraphExec 0 4096)
                                              stream7 initial_world)))
                      (mkOwnedCudaGraph 28672)
                      (snd (Launch_times verbose_platform (fixed_driver 0 0 0 1 0 0) 5
                                         (new_OwnedCudaGraphExec 0 4096) stream7
                                         initial_world))))
     = mkOwnedCudaGraphExec 4096 0 1 0.
Proof.
  repeat split.
Qed.

Lemma C4_instantiate_failure_classes_witness :
  fst (GraphInstantiate_result (fixed_driver 0 0 2 0 0 0) initial_world 28672)
  <> cudaSuccess
  /\ (exists st : Status,
         fst (InstantiateCudaGraph (fixed_driver 0 0 2 0 0 0)
                                   (mkOwnedCudaGraph 28672) initial_world) = Error st
         /\ code st = kResourceExhausted).
Proof.
  split; [ discriminate | ].
  apply (C4_instantiate_failure_classes (fixed_driver 0 0 2 0 0 0)
           (mkOwnedCudaGraph 28672) initial_world).
  discriminate.
Defined.

Lemma C5_registry_notifications_witness :
  0 <= allocated_cuda_graph_execs_ initial_world
  /\ allocated_cuda_graph_execs_ initial_world
     + count_created [CallCreated; CallDestroyed; CallCreated; CallCreated] < 2 ^ 64
  /\ fst (registry_calls [CallCreated; CallDestroyed; CallCreated; CallCreated]
                         initial_world) = [0; 1; 2].
Proof.
  split; [ cbn; lia | ].
  split; [ cbn; lia | ].
  apply (C5_registry_notifications
           [CallCreated; CallDestroyed; CallCreated; CallCreated] initial_world);
    cbn; lia.
Defined.

Lemma C9_failed_release_is_fatal_witness :
  graph_bool (mkOwnedCudaGraph 28672) = true
  /\ exec_bool (new_OwnedCudaGraphExec 0 4096) = true
  /\ OwnedCudaGraph_dtor (fixed_driver 0 0 0 0 0 1) (mkOwnedCudaGraph 28672) initial_world
     = Fatal "Failed to destroy CUDA graph: unspecified failure"
             (record (EvGraphDestroy 28672) initial_world)
  /\ OwnedCudaGraphExec_dtor quiet_platform (fixed_driver 0 0 0 0 0 1)
                             (new_OwnedCudaGraphExec 0 4096) initial_world
     = Fatal "Failed to destroy CUDA graph instance: unspecified failure"
             (record (EvGraphExecDestroy 4096) initial_world).
Proof.
  split; [ reflexivity | ].
  split; [ reflexivity | ].
  pose proof (C9_failed_release_is_fatal quiet_platform (fixed_driver 0 0 0 0 0 1)
                (mkOwnedCudaGraph 28672) (new_OwnedCudaGraphExec 0 4096)
                initial_world eq_refl eq_refl) as (Hg & He & Hgd & Hed).
  split.
  - rewrite Hgd. exact Hg.
  - rewrite Hed. exact He.
Defined.

(** C6 on the code. At the default verbosity one successful
    instantiation followed by the destruction of the handle it returned
    (N = 1, M = 1) leaves [alive] at 1, where N - M is 0: the destructor
    calls [NotifyGraphExecDestroyed] only inside its [VLOG(5)]
    statement. *)
Theorem C6_alive_not_decremented_at_default_verbosity :
  exists (c : Client) (w : World),
    lifecycle_run quiet_platform healthy_driver
                  [OpInstantiate (mkOwnedCudaGraph 28672); OpDestroy 0]
                  new_client initial_world = Some (c, w)
    /\ instantiated c = 1
    /\ destroyed c = 1
    /\ allocated_cuda_graph_execs_ w = 1
    /\ alive_cuda_graph_execs_ w = 1
    /\ alive_cuda_graph_execs_ w <> instantiated c - destroyed c.
Proof.
  eexists; eexists. split; [ reflexivity | ].
  cbn. repeat split; discriminate.
Qed.

(** C7 on the code. At the default verbosity the destructor of a handle
    that is not moved-from releases the native executable and returns
    without calling [NotifyGraphExecDestroyed]: zero calls, where the
    claim says exactly one, and [alive] stays at 1. *)
Theorem C7_destructor_skips_notification_at_default_verbosity :
  exists (e : OwnedCudaGraphExec) (w w' : World),
    InstantiateCudaGraph healthy_driver (mkOwnedCudaGraph 28672) initial_world
    = (Value e, w)
    /\ exec_bool e = true
    /\ OwnedCudaGraphExec_dtor quiet_platform healthy_driver e w = Returned w'
    /\ trace w' = [EvGraphInstantiate 28672; EvNotifyGraphExecCreated;
                   EvGraphExecDestroy 4096]
    /\ calls is_NotifyGraphExecDestroyed w' = 0%nat
    /\ alive_cuda_graph_execs_ w = 1
    /\ alive_cuda_graph_execs_ w' = 1.
Proof.
  eexists; eexists; eexists.
  split; [ reflexivity | ].
  split; [ reflexivity | ].
  split; [ reflexivity | ].
  repeat split.
Qed.

(* ===================================================================== *)
(** * Further properties of the CUDA graph helpers *)
(* ===================================================================== *)

Section CaptureMoreFacts.

Variable plat : Platform.
Variable drv : Driver.

(** The debug dump only appends calls to the trace. *)
Lemma debug_dot_print_frame (graph : cudaGraph_t) (w : World) :
  let w' := snd (debug_dot_print plat drv graph w) in
  capture_state w' = capture_state w
  /\ allocated_cuda_graph_execs_ w' = allocated_cuda_graph_execs_ w
  /\ alive_cuda_graph_execs_ w' = alive_cuda_graph_execs_ w
  /\ (calls is_GraphDebugDotPrint w' <= S (calls is_GraphDebugDotPrint w))%nat.
Proof.
  assert (Hdone : forall w1 : World,
             capture_state w1 = capture_state w ->
             allocated_cuda_graph_execs_ w1 = allocated_cuda_graph_execs_ w ->
             alive_cuda_graph_execs_ w1 = alive_cuda_graph_execs_ w ->
             (calls is_GraphDebugDotPrint w1 <= S (calls is_GraphDebugDotPrint w))%nat ->
             capture_state (snd (ret tt w1)) = capture_state w
             /\ allocated_cuda_graph_execs_ (snd (ret tt w1))
                = allocated_cuda_graph_execs_ w
             /\ alive_cuda_graph_execs_ (snd (ret tt w1)) = alive_cuda_graph_execs_ w
             /\ (calls is_GraphDebugDotPrint (snd (ret tt w1))
                 <= S (calls is_GraphDebugDotPrint w))%nat)
    by (intros; cbn [ret snd]; auto).
  unfold debug_dot_print, bind, CreateUniqueFileName, cudaGraphDebugDotPrint,
    ReadFileToString.
  destruct ((12000 <=? CUDA_VERSION plat) && VLOG_IS_ON plat 100);
    [ | apply Hdone; auto ].
  destruct (getenv plat "XLA_CUDA_GRAPH_DEBUG_DIRECTORY") as [path | ];
    [ | apply Hdone; auto ].
  destruct (CreateUniqueFileName_result plat w _ _) as [file' | ];
    [ | apply Hdone; rewrite ?calls_record; cbn; auto; lia ].
  destruct (negb (_ =? cudaSuccess));
    [ apply Hdone; rewrite ?calls_record; cbn; auto; lia | ].
  destruct (VLOG_IS_ON plat 200);
    apply Hdone; rewrite ?calls_record; cbn; auto; lia.
Qed.

Lemma CaptureCudaGraph_begin_failed
      (stream : Stream) (capture : M Status) (mode : cudaStreamCaptureMode)
      (w : World) :
  let err := StreamBeginCapture_result drv w (AsGpuStreamValue stream) mode in
  (err =? cudaSuccess) = false ->
  CaptureCudaGraph plat drv stream capture mode w
  = (Error (InternalError (StrFormat "stream begin capture failed: "
                                     (cudaGetErrorString drv err))),
     record (EvStreamBeginCapture (AsGpuStreamValue stream) mode) w).
Proof.
  intros err Herr.
  unfold CaptureCudaGraph, bind, cudaStreamBeginCapture, ret.
  fold err. rewrite Herr. reflexivity.
Qed.

(** X1. [CaptureCudaGraph] returns a graph handle exactly when
    begin-capture, end-capture and the callback all succeed, and the
    handle then owns the graph end-capture delivered, whatever the debug
    dump did. Otherwise it returns an internal error that names the first
    failure in the order begin-capture, end-capture, callback. *)
Theorem X1_capture_returns_graph_iff_all_succeed
        (stream : Stream) (capture : M Status) (mode : cudaStreamCaptureMode)
        (w : World) :
  let s := AsGpuStreamValue stream in
  let begin_err := StreamBeginCapture_result drv w s mode in
  let cw := capture (world_at_capture stream mode w) in
  let end_res := StreamEndCapture_result drv (snd cw) s in
  fst (CaptureCudaGraph plat drv stream capture mode w)
  = if (begin_err =? cudaSuccess) && (fst end_res =? cudaSuccess) && ok (fst cw)
    then Value (mkOwnedCudaGraph (snd end_res))
    else Error (InternalError
                  (if negb (begin_err =? cudaSuccess)
                   then "stream begin capture failed: " ++ cudaGetErrorString drv begin_err
                   else if negb (fst end_res =? cudaSuccess)
                   then "stream end capture failed: "
                          ++ cudaGetErrorString drv (fst end_res)
                   else "failed to capture CUDA graph: " ++ message (fst cw))).
Proof.
  intros s begin_err cw end_res.
  destruct (begin_err =? cudaSuccess) eqn:Hbegin.
  - apply Z.eqb_eq in Hbegin.
    rewrite (CaptureCudaGraph_after_begin plat drv stream capture mode w Hbegin).
    subst end_res. fold cw. destruct cw as [captured w2]. cbn [fst snd].
    unfold cudaStreamEndCapture. fold s.
    destruct (StreamEndCapture_result drv w2 s) as [err graph]. cbn [fst snd].
    destruct (err =? cudaSuccess); cbn [negb andb]; [ | reflexivity ].
    destruct (ok captured); cbn [negb]; [ | reflexivity ].
    unfold bind. destruct (debug_dot_print plat drv graph _). reflexivity.
  - rewrite (CaptureCudaGraph_begin_failed stream capture mode w Hbegin).
    reflexivity.
Qed.

(** X2. After [CaptureCudaGraph] the captured stream is Idle whenever
    begin-capture succeeded, for every outcome of the callback and of
    end-capture, and keeps the state it had when begin-capture failed.
    Every other stream, and both lifecycle counters, are as the callback
    left them: the capture itself moves neither. *)
Theorem X2_capture_leaves_stream_idle
        (stream : Stream) (capture : M Status) (mode : cudaStreamCaptureMode)
        (w : World) (other : cudaStream_t) :
  let s := AsGpuStreamValue stream in
  let begin_ok := StreamBeginCapture_result drv w s mode =? cudaSuccess in
  let w2 := snd (capture (world_at_capture stream mode w)) in
  let w' := snd (CaptureCudaGraph plat drv stream capture mode w) in
  other <> s ->
  capture_state w' s = (if begin_ok then Idle else capture_state w s)
  /\ capture_state w' other
     = (if begin_ok then capture_state w2 other else capture_state w other)
  /\ allocated_cuda_graph_execs_ w'
     = (if begin_ok then allocated_cuda_graph_execs_ w2
        else allocated_cuda_graph_execs_ w)
  /\ alive_cuda_graph_execs_ w'
     = (if begin_ok then alive_cuda_graph_execs_ w2 else alive_cuda_graph_execs_ w).
Proof.
  intros s begin_ok w2 w' Hother. subst w' begin_ok.
  destruct (StreamBeginCapture_result drv w s mode =? cudaSuccess) eqn:Hbegin.
  - apply Z.eqb_eq in Hbegin.
    rewrite (CaptureCudaGraph_after_begin plat drv stream capture mode w Hbegin).
    subst w2. destruct (capture (world_at_capture stream mode w)) as [captured w2].
    cbn [fst snd].
    unfold cudaStreamEndCapture. fold s.
    destruct (StreamEndCapture_result drv w2 s) as [err graph].
    assert (Hs : (s =? s) = true) by apply Z.eqb_refl.
    assert (Ho : (other =? s) = false) by (apply Z.eqb_neq; exact Hother).
    assert (Hend : forall w3 : World,
               w3 = record (EvStreamEndCapture s) (set_capture_state s Idle w2) ->
               capture_state w3 s = Idle
               /\ capture_state w3 other = capture_state w2 other
               /\ allocated_cuda_graph_execs_ w3 = allocated_cuda_graph_execs_ w2
               /\ alive_cuda_graph_execs_ w3 = alive_cuda_graph_execs_ w2).
    { intros w3 ->. cbn. rewrite Hs, Ho. auto. }
    destruct (negb (err =? cudaSuccess)); [ apply Hend; reflexivity | ].
    destruct (negb (ok captured)); [ apply Hend; reflexivity | ].
    unfold bind.
    pose proof (debug_dot_print_frame graph
                  (record (EvStreamEndCapture s) (set_capture_state s Idle w2)))
      as (Hc & Ha & Hl & _).
    destruct (debug_dot_print plat drv graph _) as [u w4].
    cbn [fst snd ret] in *.
    rewrite Hc, Ha, Hl. apply Hend. reflexivity.
  - rewrite (CaptureCudaGraph_begin_failed stream capture mode w Hbegin).
    cbn. auto.
Qed.

(** X3. Unless the build is CUDA 12 or later, verbose level 100 is on
    and XLA_CUDA_GRAPH_DEBUG_DIRECTORY is set, the debug dump is skipped
    altogether: once begin-capture has succeeded, [CaptureCudaGraph]
    makes exactly the calls begin-capture, callback, end-capture and
    nothing after, for every outcome of the callback and of
    end-capture. *)
Theorem X3_capture_without_debug_dump
        (stream : Stream) (capture : M Status) (mode : cudaStreamCaptureMode)
        (w : World) :
  let s := AsGpuStreamValue stream in
  let w2 := snd (capture (world_at_capture stream mode w)) in
  (12000 <=? CUDA_VERSION plat) && VLOG_IS_ON plat 100 = false
  \/ getenv plat "XLA_CUDA_GRAPH_DEBUG_DIRECTORY" = None ->
  StreamBeginCapture_result drv w s mode = cudaSuccess ->
  snd (CaptureCudaGraph plat drv stream capture mode w)
  = record (EvStreamEndCapture s) (set_capture_state s Idle w2).
Proof.
  intros s w2 Hdump Hbegin.
  assert (Hskip : forall graph w0, debug_dot_print plat drv graph w0 = (tt, w0)).
  { intros graph w0. unfold debug_dot_print.
    destruct Hdump as [Hoff | Hunset].
    - rewrite Hoff. reflexivity.
    - destruct ((12000 <=? CUDA_VERSION plat) && VLOG_IS_ON plat 100);
        [ rewrite Hunset | ]; reflexivity. }
  rewrite (CaptureCudaGraph_after_begin plat drv stream capture mode w Hbegin).
  subst w2. destruct (capture (world_at_capture stream mode w)) as [captured w2].
  unfold cudaStreamEndCapture. fold s.
  destruct (StreamEndCapture_result drv w2 s) as [err graph].
  destruct (negb (err =? cudaSuccess)); [ reflexivity | ].
  destruct (negb (ok captured)); [ reflexivity | ].
  unfold bind. rewrite Hskip. reflexivity.
Qed.

(** X4. [IsStreamCapturing] follows the capture: asked from inside the
    capture callback it answers true, asked after [CaptureCudaGraph] has
    returned it answers false, provided begin-capture and the two
    queries succeed. *)
Theorem X4_IsStreamCapturing_tracks_capture
        (stream : Stream) (capture : M Status) (mode : cudaStreamCaptureMode)
        (w : World) :
  let s := AsGpuStreamValue stream in
  let inside := world_at_capture stream mode w in
  let after := snd (CaptureCudaGraph plat drv stream capture mode w) in
  StreamBeginCapture_result drv w s mode = cudaSuccess ->
  StreamIsCapturing_result drv inside s = cudaSuccess ->
  StreamIsCapturing_result drv after s = cudaSuccess ->
  fst (IsStreamCapturing drv stream inside) = Value true
  /\ fst (IsStreamCapturing drv stream after) = Value false.
Proof.
  intros s inside after Hbegin Hin Hafter.
  assert (Hidle : capture_state after s = Idle).
  { subst after.
    rewrite (CaptureCudaGraph_after_begin plat drv stream capture mode w Hbegin).
    destruct (capture (world_at_capture stream mode w)) as [captured w2].
    unfold cudaStreamEndCapture. fold s.
    destruct (StreamEndCapture_result drv w2 s) as [err graph].
    assert (Hs : (s =? s) = true) by apply Z.eqb_refl.
    destruct (negb (err =? cudaSuccess)); [ cbn; rewrite Hs; reflexivity | ].
    destruct (negb (ok captured)); [ cbn; rewrite Hs; reflexivity | ].
    unfold bind.
    pose proof (debug_dot_print_frame graph
                  (record (EvStreamEndCapture s) (set_capture_state s Idle w2)))
      as (Hc & _).
    destruct (debug_dot_print plat drv graph _) as [u w4].
    cbn [fst snd ret] in *. rewrite Hc. cbn. rewrite Hs. reflexivity. }
  unfold IsStreamCapturing, bind, cudaStreamIsCapturing, ret. fold s.
  rewrite Hin, Hafter, Hidle. cbn.
  subst inside. unfold world_at_capture. cbn. fold s.
  rewrite Z.eqb_refl. auto.
Qed.

End CaptureMoreFacts.

Section HandleMoreFacts.

Variable plat : Platform.
Variable drv : Driver.

(** X5. When the native instantiation succeeds, [InstantiateCudaGraph]
    returns a handle that owns the executable the driver delivered, has
    the value of [allocated] before the call as its identity and both
    counters at 0; [allocated] and [alive] each grow by one, with exactly
    one call of [NotifyGraphExecCreated], and no stream changes state. *)
Theorem X5_instantiate_success (graph : OwnedCudaGraph) (w : World) :
  let r := GraphInstantiate_result drv w (graph_get graph) in
  let res := InstantiateCudaGraph drv graph w in
  fst r = cudaSuccess ->
  0 <= allocated_cuda_graph_execs_ w < 2 ^ 64 - 1 ->
  0 <= alive_cuda_graph_execs_ w < 2 ^ 64 - 1 ->
  fst res = Value (mkOwnedCudaGraphExec (snd r) (allocated_cuda_graph_execs_ w) 0 0)
  /\ allocated_cuda_graph_execs_ (snd res) = allocated_cuda_graph_execs_ w + 1
  /\ alive_cuda_graph_execs_ (snd res) = alive_cuda_graph_execs_ w + 1
  /\ calls is_NotifyGraphExecCreated (snd res)
     = S (calls is_NotifyGraphExecCreated w)
  /\ capture_state (snd res) = capture_state w.
Proof.
  intros r res Hok Halloc Halive. subst res.
  rewrite (InstantiateCudaGraph_success drv graph w Hok).
  rewrite NotifyGraphExecCreated_eq. cbn [fst snd].
  cbn [allocated_cuda_graph_execs_ alive_cuda_graph_execs_ capture_state record].
  rewrite !wrap64_small by lia.
  split; [ reflexivity | ]. split; [ reflexivity | ]. split; [ reflexivity | ].
  split; [ | reflexivity ].
  unfold calls. cbn [trace record]. rewrite !filter_app, !length_app. cbn. lia.
Qed.

(** X6. [Launch] and [Update] never change the executable a handle owns
    nor its identity, and [Launch] never changes the update counter, at
    any verbosity and whatever the driver answers. A call of [Launch]
    makes exactly one native call. A call of [Update] makes the native
    update call and then releases the graph handle it took by value:
    one native graph destroy when that handle is not empty, none when it
    is empty, and the process is terminated when that destroy fails.
    Neither call touches the lifecycle counters nor any stream's capture
    state. *)
Theorem X6_handle_identity_is_immutable
        (self : OwnedCudaGraphExec) (graph : OwnedCudaGraph) (stream : Stream)
        (w : World) :
  let launched := Launch plat drv self stream w in
  let updated := Update plat drv self graph w in
  let w1 := record (EvGraphExecUpdate (exec_get self) (graph_get graph)) w in
  let gerr := GraphDestroy_result drv w1 (graph_get graph) in
  let call := Update_call plat drv self graph w in
  (exec_get (snd (fst launched)) = exec_get self
   /\ id_ (snd (fst launched)) = id_ self
   /\ num_updates_ (snd (fst launched)) = num_updates_ self
   /\ snd launched = record (EvGraphLaunch (exec_get self) (AsGpuStreamValue stream)) w)
  /\ (exec_get (snd (fst updated)) = exec_get self
      /\ id_ (snd (fst updated)) = id_ self)
  /\ call
     = (if graph_bool graph
        then if gerr =? cudaSuccess
             then Completed (fst updated) (record (EvGraphDestroy (graph_get graph)) w1)
             else Aborted ("Failed to destroy CUDA graph: "
                             ++ cudaGetErrorString drv gerr)
                          (record (EvGraphDestroy (graph_get graph)) w1)
        else Completed (fst updated) w1)
  /\ (calls is_GraphDestroy (call_world call)
      = (calls is_GraphDestroy w + (if graph_bool graph then 1 else 0))%nat
      /\ allocated_cuda_graph_execs_ (call_world call) = allocated_cuda_graph_execs_ w
      /\ alive_cuda_graph_execs_ (call_world call) = alive_cuda_graph_execs_ w
      /\ capture_state (call_world call) = capture_state w).
Proof.
  intros launched updated w1 gerr call.
  assert (Hcall :
            call
            = (if graph_bool graph
               then if gerr =? cudaSuccess
                    then Completed (fst updated)
                                   (record (EvGraphDestroy (graph_get graph)) w1)
                    else Aborted ("Failed to destroy CUDA graph: "
                                    ++ cudaGetErrorString drv gerr)
                                 (record (EvGraphDestroy (graph_get graph)) w1)
               else Completed (fst updated) w1)).
  { subst call updated gerr w1. unfold Update_call, consume_graph.
    rewrite Update_eq. cbn [fst snd].
    unfold OwnedCudaGraph_dtor, DestroyGraph, cudaGraphDestroy, CHECK.
    destruct (graph_bool graph); [ | reflexivity ].
    destruct (_ =? cudaSuccess); reflexivity. }
  split; [ | split; [ | split; [ exact Hcall | ] ] ].
  - subst launched. rewrite Launch_eq. cbn [fst snd].
    destruct (VLOG_IS_ON plat 3); repeat split.
  - subst updated. rewrite Update_eq. cbn [fst snd]. repeat split.
  - rewrite Hcall. subst w1.
    destruct (graph_bool graph);
      [ destruct (gerr =? cudaSuccess) | ];
      cbn [call_world]; rewrite ?calls_record; cbn; repeat split; lia.
Qed.

(** X21. A call of [InstantiateCudaGraph] always consumes the graph
    handle it is given, whether the instantiation succeeds, runs out of
    memory or fails otherwise: after the result is built the graph is
    released with exactly one native graph destroy when the handle is
    not empty and none when it is empty, and the process is terminated
    when that destroy fails. The caller otherwise gets the result of the
    body, and the release changes neither lifecycle counter. *)
Theorem X21_instantiate_consumes_graph (graph : OwnedCudaGraph) (w : World) :
  let body := InstantiateCudaGraph drv graph w in
  let gerr := GraphDestroy_result drv (snd body) (graph_get graph) in
  let call := InstantiateCudaGraph_call drv graph w in
  call
  = (if graph_bool graph
     then if gerr =? cudaSuccess
          then Completed (fst body) (record (EvGraphDestroy (graph_get graph)) (snd body))
          else Aborted ("Failed to destroy CUDA graph: " ++ cudaGetErrorString drv gerr)
                       (record (EvGraphDestroy (graph_get graph)) (snd body))
     else Completed (fst body) (snd body))
  /\ calls is_GraphDestroy (call_world call)
     = (calls is_GraphDestroy w + (if graph_bool graph then 1 else 0))%nat
  /\ allocated_cuda_graph_execs_ (call_world call)
     = allocated_cuda_graph_execs_ (snd body)
  /\ alive_cuda_graph_execs_ (call_world call) = alive_cuda_graph_execs_ (snd body).
Proof.
  intros body gerr call.
  assert (Hbody : calls is_GraphDestroy (snd body) = calls is_GraphDestroy w).
  { subst body.
    unfold InstantiateCudaGraph, bind, cudaGraphInstantiate, cudaGetLastError, ret.
    destruct (GraphInstantiate_result drv w (graph_get graph)) as [err exec].
    destruct (negb (err =? cudaSuccess)).
    - destruct (err =? cudaErrorMemoryAllocation); cbn [snd];
        rewrite ?calls_record; cbn; lia.
    - rewrite NotifyGraphExecCreated_eq. cbn [snd].
      unfold calls. cbn [trace record].
      rewrite !filter_app, !length_app. cbn. lia. }
  assert (Hcall :
            call
            = (if graph_bool graph
               then if gerr =? cudaSuccess
                    then Completed (fst body)
                                   (record (EvGraphDestroy (graph_get graph)) (snd body))
                    else Aborted ("Failed to destroy CUDA graph: "
                                    ++ cudaGetErrorString drv gerr)
                                 (record (EvGraphDestroy (graph_get graph)) (snd body))
               else Completed (fst body) (snd body))).
  { subst call gerr. unfold InstantiateCudaGraph_call, consume_graph. fold body.
    destruct body as [r w1]. cbn [fst snd].
    unfold OwnedCudaGraph_dtor, DestroyGraph, cudaGraphDestroy, CHECK.
    destruct (graph_bool graph); [ | reflexivity ].
    destruct (_ =? cudaSuccess); reflexivity. }
  split; [ exact Hcall | ].
  rewrite Hcall.
  destruct (graph_bool graph);
    [ destruct (gerr =? cudaSuccess) | ];
    cbn [call_world]; rewrite ?calls_record, Hbody; cbn; repeat split; lia.
Qed.

Lemma Launch_times_frame (n : nat) :
  forall (self self' : OwnedCudaGraphExec) (stream : Stream) (w w' : World)
         (sts : list Status),
    Launch_times plat drv n self stream w = (sts, self', w') ->
    exec_get self' = exec_get self
    /\ id_ self' = id_ self
    /\ num_updates_ self' = num_updates_ self
    /\ (VLOG_IS_ON plat 3 = false -> self' = self).
Proof.
  induction n as [ | n IH ]; intros self self' stream w w' sts Hrun.
  - cbn in Hrun. injection Hrun as _ <- _. auto.
  - cbn [Launch_times] in Hrun. unfold bind at 1 in Hrun.
    rewrite Launch_eq in Hrun. unfold bind, ret in Hrun.
    destruct (Launch_times plat drv n _ stream _) as [[sts2 self2] w2] eqn:Hrest.
    injection Hrun as _ <- _.
    apply IH in Hrest. destruct Hrest as (He & Hi & Hu & Hq).
    destruct (VLOG_IS_ON plat 3) eqn:Hv; cbn in *.
    + repeat split; try congruence.
    + repeat split; try congruence. intros _. apply Hq. reflexivity.
Qed.

(** X7. With verbose level 3 on, the launch counter counts the launches
    since the last update: after an [Update], successful or not, and [n]
    further calls of [Launch], successful or not, it reads [n], and the
    update counter still has the value the update gave it. *)
Theorem X7_launches_since_last_update
        (n : nat) (self : OwnedCudaGraphExec) (graph : OwnedCudaGraph)
        (stream : Stream) (w : World) :
  let updated := Update plat drv self graph w in
  let self' := snd (fst (Launch_times plat drv n (snd (fst updated)) stream
                                      (snd updated))) in
  VLOG_IS_ON plat 3 = true ->
  Z.of_nat n < 2 ^ 64 ->
  num_launches_ self' = Z.of_nat n
  /\ num_updates_ self' = wrap64 (num_updates_ self + 1).
Proof.
  intros updated self' Hlog Hn. subst self' updated.
  rewrite Update_eq. cbn [fst snd]. rewrite Hlog.
  split.
  - rewrite Launch_times_num_launches; try assumption.
    + cbn [num_launches_]. apply wrap64_small. lia.
    + cbn [num_launches_]. lia.
  - match goal with
    | |- context [ Launch_times plat drv n ?e stream ?w1 ] =>
        destruct (Launch_times plat drv n e stream w1) as [[sts self2] w2] eqn:Hrun
    end.
    apply Launch_times_frame in Hrun. destruct Hrun as (_ & _ & Hu & _).
    cbn [fst snd]. rewrite Hu. reflexivity.
Qed.

(** X8. Without verbose level 3 the two counters of a handle carry no
    information: any number of calls of [Launch] returns the handle
    exactly as it was, and [Update] only sets the launch counter to 0,
    the update counter keeping its value. *)
Theorem X8_counters_frozen_without_verbose_logging
        (n : nat) (self : OwnedCudaGraphExec) (graph : OwnedCudaGraph)
        (stream : Stream) (w : World) :
  VLOG_IS_ON plat 3 = false ->
  snd (fst (Launch_times plat drv n self stream w)) = self
  /\ snd (fst (Update plat drv self graph w))
     = mkOwnedCudaGraphExec (exec_get self) (id_ self) (num_updates_ self) 0.
Proof.
  intros Hlog. split.
  - destruct (Launch_times plat drv n self stream w) as [[sts self2] w2] eqn:Hrun.
    apply Launch_times_frame in Hrun. destruct Hrun as (_ & _ & _ & Hq).
    cbn [fst snd]. apply Hq. exact Hlog.
  - rewrite Update_eq. cbn [fst snd]. rewrite Hlog. reflexivity.
Qed.

(** X9. The destructor of an executable handle calls the native destroy
    exactly once when the handle is not empty and not at all when it is
    empty, at every verbosity and whether or not that destroy succeeds;
    it never changes [allocated] nor any stream's capture state. *)
Theorem X9_exec_destructor_releases_once (e : OwnedCudaGraphExec) (w : World) :
  let w' := outcome_world (OwnedCudaGraphExec_dtor plat drv e w) in
  calls is_GraphExecDestroy w'
  = (calls is_GraphExecDestroy w + (if exec_bool e then 1 else 0))%nat
  /\ allocated_cuda_graph_execs_ w' = allocated_cuda_graph_execs_ w
  /\ capture_state w' = capture_state w.
Proof.
  intros w'. subst w'.
  unfold OwnedCudaGraphExec_dtor, OwnedCudaGraphExec_dtor_body.
  destruct (exec_bool e).
  - unfold DestroyGraphExec, cudaGraphExecDestroy, CHECK.
    destruct (VLOG_IS_ON plat 5);
      unfold NotifyGraphExecDestroyed, bind, emit, alive_fetch_sub, ret;
      match goal with
      | |- context [ if ?c then Returned ?a else Fatal ?m ?b ] =>
          assert (Hw : outcome_world (if c then Returned a else Fatal m b) = a)
            by (destruct c; reflexivity);
          rewrite Hw; clear Hw
      end;
      rewrite ?calls_record, ?calls_set_alive, ?calls_record; cbn;
      repeat split; lia.
  - cbn. repeat split. lia.
Qed.

End HandleMoreFacts.

Section RegistryMoreFacts.

Lemma wrap64_range (z : Z) : 0 <= wrap64 z < 2 ^ 64.
Proof. unfold wrap64. apply Z.mod_pos_bound. lia. Qed.

Lemma wrap64_add_l (a b : Z) : wrap64 (wrap64 a + b) = wrap64 (a + b).
Proof. unfold wrap64. apply Zplus_mod_idemp_l. Qed.

Lemma count_created_cons_destroyed (calls : list RegistryCall) :
  count_created (CallDestroyed :: calls) = count_created calls.
Proof. reflexivity. Qed.

Lemma count_destroyed_cons_created (calls : list RegistryCall) :
  count_destroyed (CallCreated :: calls) = count_destroyed calls.
Proof. reflexivity. Qed.

Lemma count_destroyed_cons_destroyed (calls : list RegistryCall) :
  count_destroyed (CallDestroyed :: calls) = count_destroyed calls + 1.
Proof. unfold count_destroyed. cbn [filter length]. lia. Qed.

(** X10. Over any sequence of notifications the registry keeps exact
    accounts modulo 2^64: [allocated] has grown by the number of
    creations, [alive] by the creations minus the destructions, and one
    identity was handed out per creation. Nothing stops [alive] at
    zero. *)
Theorem X10_registry_accounts_modulo_2_64 (calls : list RegistryCall) :
  forall w : World,
    0 <= allocated_cuda_graph_execs_ w < 2 ^ 64 ->
    0 <= alive_cuda_graph_execs_ w < 2 ^ 64 ->
    let r := registry_calls calls w in
    allocated_cuda_graph_execs_ (snd r)
    = wrap64 (allocated_cuda_graph_execs_ w + count_created calls)
    /\ alive_cuda_graph_execs_ (snd r)
       = wrap64 (alive_cuda_graph_execs_ w + count_created calls - count_destroyed calls)
    /\ Z.of_nat (length (fst r)) = count_created calls.
Proof.
  induction calls as [ | [ | ] calls IH ]; intros w Halloc Halive; cbv zeta.
  - cbn. rewrite Z.add_0_r, Z.sub_0_r, Z.add_0_r.
    rewrite !wrap64_small by assumption. auto.
  - cbn [registry_calls]. unfold bind, ret. rewrite NotifyGraphExecCreated_eq.
    set (w1 := mkWorld _ _ _ _).
    specialize (IH w1 (wrap64_range _) (wrap64_range _)). cbv zeta in IH.
    destruct (registry_calls calls w1) as [ids w2].
    cbn [fst snd length] in *. destruct IH as (Ha & Hl & Hn).
    rewrite Ha, Hl. subst w1.
    cbn [allocated_cuda_graph_execs_ alive_cuda_graph_execs_].
    rewrite count_created_cons_created, count_destroyed_cons_created.
    rewrite wrap64_add_l.
    replace (wrap64 (alive_cuda_graph_execs_ w + 1) + count_created calls
             - count_destroyed calls)
      with (wrap64 (alive_cuda_graph_execs_ w + 1)
            + (count_created calls - count_destroyed calls)) by lia.
    rewrite wrap64_add_l.
    repeat split; try (f_equal; lia).
  - cbn [registry_calls]. unfold bind. rewrite NotifyGraphExecDestroyed_eq.
    set (w1 := mkWorld _ _ _ _).
    specialize (IH w1 Halloc (wrap64_range _)). cbv zeta in IH.
    destruct (registry_calls calls w1) as [ids w2].
    cbn [fst snd] in *. destruct IH as (Ha & Hl & Hn).
    rewrite Ha, Hl. subst w1.
    cbn [allocated_cuda_graph_execs_ alive_cuda_graph_execs_].
    rewrite count_created_cons_destroyed, count_destroyed_cons_destroyed.
    replace (wrap64 (alive_cuda_graph_execs_ w - 1) + count_created calls
             - count_destroyed calls)
      with (wrap64 (alive_cuda_graph_execs_ w - 1)
            + (count_created calls - count_destroyed calls)) by lia.
    rewrite wrap64_add_l.
    repeat split; try (f_equal; lia).
Qed.

(** X11. A creation followed by a destruction restores [alive], and the
    destruction reports the count that remains; a destruction notified
    when [alive] is 0 does not stop at zero but wraps to 2^64 - 1. *)
Theorem X11_created_then_destroyed (w : World) :
  0 <= alive_cuda_graph_execs_ w < 2 ^ 64 - 1 ->
  let created := NotifyGraphExecCreated w in
  let destroyed := NotifyGraphExecDestroyed (snd created) in
  fst destroyed = alive_cuda_graph_execs_ w
  /\ alive_cuda_graph_execs_ (snd destroyed) = alive_cuda_graph_execs_ w
  /\ fst (NotifyGraphExecDestroyed w)
     = (if alive_cuda_graph_execs_ w =? 0 then 2 ^ 64 - 1
        else alive_cuda_graph_execs_ w - 1).
Proof.
  intros Hrange created destroyed. subst destroyed created.
  rewrite !NotifyGraphExecDestroyed_eq, NotifyGraphExecCreated_eq.
  cbn [fst snd alive_cuda_graph_execs_].
  rewrite (wrap64_small (z := alive_cuda_graph_execs_ w + 1)) by lia.
  replace (alive_cuda_graph_execs_ w + 1 - 1) with (alive_cuda_graph_execs_ w) by lia.
  rewrite (wrap64_small (z := alive_cuda_graph_execs_ w)) by lia.
  split; [ reflexivity | ]. split; [ reflexivity | ].
  destruct (Z.eqb_spec (alive_cuda_graph_execs_ w) 0) as [Hz | Hnz].
  - rewrite Hz. reflexivity.
  - apply wrap64_small. lia.
Qed.

End RegistryMoreFacts.

Section LifecycleMoreFacts.

Variable plat : Platform.
Variable drv : Driver.

Lemma exec_dtor_allocated (e : OwnedCudaGraphExec) (w w1 : World) :
  OwnedCudaGraphExec_dtor plat drv e w = Returned w1 ->
  allocated_cuda_graph_execs_ w1 = allocated_cuda_graph_execs_ w.
Proof.
  intros Hret.
  destruct (VLOG_IS_ON plat 5) eqn:Hlog.
  - destruct (exec_bool e) eqn:He.
    + pose proof (exec_dtor_notifies_when_logged plat drv e w Hlog He) as (_ & _ & H).
      rewrite Hret in H. exact H.
    + rewrite (empty_exec_dtor plat drv e w He) in Hret.
      injection Hret as <-. reflexivity.
  - pose proof (exec_dtor_silent_when_not_logged plat drv e w Hlog) as (_ & _ & H).
    rewrite Hret in H. exact H.
Qed.

Lemma remove_nth_In {A : Type} (l : list A) :
  forall (k : nat) (x : A), In x (remove_nth k l) -> In x l.
Proof.
  induction l as [ | h t IH ]; intros [ | k ] x Hin; cbn in *; auto.
  destruct Hin as [<- | Hin]; [ left; reflexivity | right; eauto ].
Qed.

Lemma remove_nth_Forall {A : Type} (P : A -> Prop) (l : list A) (k : nat) :
  Forall P l -> Forall P (remove_nth k l).
Proof.
  rewrite !Forall_forall. intros H x Hin. apply H. eapply remove_nth_In. exact Hin.
Qed.

Lemma remove_nth_NoDup_map {A B : Type} (f : A -> B) (l : list A) :
  forall k : nat, NoDup (map f l) -> NoDup (map f (remove_nth k l)).
Proof.
  induction l as [ | h t IH ]; intros [ | k ] Hnd; cbn in *; auto.
  - inversion Hnd; assumption.
  - inversion Hnd as [ | x l' Hnotin Hnd' ]; subst. constructor.
    + intros Hin. apply Hnotin. apply in_map_iff in Hin.
      destruct Hin as (y & Hy & Hin). apply in_map_iff. exists y. split; [ exact Hy | ].
      eapply remove_nth_In. exact Hin.
    + apply IH. exact Hnd'.
Qed.

Lemma lifecycle_step_ids (op : LifecycleOp) (c c' : Client) (w w' : World) :
  lifecycle_ids_inv c w ->
  0 <= instantiated c ->
  instantiated c + count_instantiate [op] < 2 ^ 64 ->
  lifecycle_step plat drv op c w = Some (c', w') ->
  lifecycle_ids_inv c' w'
  /\ instantiated c <= instantiated c' <= instantiated c + count_instantiate [op].
Proof.
  intros (Halloc & Hall & Hnd) Hlo Hhi Hstep.
  destruct op as [graph | k]; unfold lifecycle_step in Hstep.
  - change (count_instantiate [OpInstantiate graph]) with 1 in *.
    destruct (Z.eqb_spec (fst (GraphInstantiate_result drv w (graph_get graph)))
                         cudaSuccess) as [Hok | Hfail].
    + rewrite (InstantiateCudaGraph_success drv graph w Hok) in Hstep.
      rewrite NotifyGraphExecCreated_eq in Hstep. cbn [snd] in Hstep.
      injection Hstep as <- <-.
      unfold lifecycle_ids_inv.
      cbn [held instantiated allocated_cuda_graph_execs_ record].
      rewrite wrap64_small by lia.
      split; [ | lia ].
      split; [ lia | ]. split.
      * apply Forall_app. split.
        -- eapply Forall_impl; [ | exact Hall ]. cbn. intros a Ha. lia.
        -- constructor; [ cbn; lia | constructor ].
      * rewrite map_app. apply NoDup_app.
        -- exact Hnd.
        -- cbn. constructor; [ intros [] | constructor ].
        -- intros a Hin [Heq | []]. cbn in Heq. subst a.
           apply in_map_iff in Hin. destruct Hin as (e & He & Hin).
           rewrite Forall_forall in Hall. apply Hall in Hin. lia.
    + rewrite (InstantiateCudaGraph_failure drv graph w Hfail) in Hstep.
      destruct (_ =? cudaErrorMemoryAllocation); injection Hstep as <- <-;
        unfold lifecycle_ids_inv; cbn; (split; [ | lia ]); auto.
  - change (count_instantiate [OpDestroy k]) with 0 in *.
    destruct (nth_error (held c) k) as [e | ] eqn:Hnth; [ | discriminate ].
    destruct (OwnedCudaGraphExec_dtor plat drv e w) as [w1 | msg w1] eqn:Hdtor;
      [ | discriminate ].
    injection Hstep as <- <-.
    apply exec_dtor_allocated in Hdtor.
    unfold lifecycle_ids_inv. cbn [held instantiated]. rewrite Hdtor.
    split; [ | lia ].
    split; [ exact Halloc | ]. split.
    + apply remove_nth_Forall. exact Hall.
    + apply remove_nth_NoDup_map. exact Hnd.
Qed.

Lemma lifecycle_run_ids (ops : list LifecycleOp) :
  forall (c c' : Client) (w w' : World),
    lifecycle_ids_inv c w ->
    0 <= instantiated c ->
    instantiated c + count_instantiate ops < 2 ^ 64 ->
    lifecycle_run plat drv ops c w = Some (c', w') ->
    lifecycle_ids_inv c' w' /\ instantiated c <= instantiated c'.
Proof.
  induction ops as [ | op ops IH ]; intros c c' w w' Hinv Hlo Hhi Hrun.
  - injection Hrun as <- <-. split; [ assumption | lia ].
  - cbn [lifecycle_run] in Hrun.
    rewrite count_instantiate_cons in Hhi.
    pose proof (count_instantiate_nonneg ops) as Hn.
    pose proof (count_instantiate_nonneg [op]) as Hn1.
    destruct (lifecycle_step plat drv op c w) as [[c1 w1] | ] eqn:Hstep;
      [ | discriminate ].
    apply lifecycle_step_ids in Hstep; try assumption; try lia.
    destruct Hstep as (Hinv1 & Hle1).
    apply IH in Hrun; try assumption; try lia.
    destruct Hrun as (Hinv' & Hle'). split; [ assumption | lia ].
Qed.

(** X12. Whatever a client does, at any verbosity, the handles it holds
    carry pairwise distinct identities, each of them below [allocated],
    and [allocated] is the number of instantiations that returned a
    handle, as long as there were fewer than 2^64 of them. *)
Theorem X12_held_identities_are_distinct
        (ops : list LifecycleOp) (c' : Client) (w' : World) :
  count_instantiate ops < 2 ^ 64 ->
  lifecycle_run plat drv ops new_client initial_world = Some (c', w') ->
  NoDup (map id_ (held c'))
  /\ Forall (fun e => 0 <= id_ e < allocated_cuda_graph_execs_ w') (held c')
  /\ allocated_cuda_graph_execs_ w' = instantiated c'.
Proof.
  intros Hhi Hrun.
  apply lifecycle_run_ids in Hrun.
  - destruct Hrun as ((Halloc & Hall & Hnd) & _). auto.
  - unfold lifecycle_ids_inv. cbn. repeat split; constructor.
  - cbn. lia.
  - cbn [instantiated new_client]. lia.
Qed.

End LifecycleMoreFacts.

Section LifecycleCountFacts.

Variable plat : Platform.
Variable drv : Driver.

Lemma lifecycle_run_app (ops1 ops2 : list LifecycleOp) :
  forall (c : Client) (w : World),
    lifecycle_run plat drv (ops1 ++ ops2) c w
    = match lifecycle_run plat drv ops1 c w with
      | Some (c1, w1) => lifecycle_run plat drv ops2 c1 w1
      | None => None
      end.
Proof.
  induction ops1 as [ | op ops1 IH ]; intros c w; cbn [app lifecycle_run].
  - reflexivity.
  - destruct (lifecycle_step plat drv op c w) as [[c1 w1] | ]; [ apply IH | reflexivity ].
Qed.

Lemma count_instantiate_app (ops1 ops2 : list LifecycleOp) :
  count_instantiate (ops1 ++ ops2) = count_instantiate ops1 + count_instantiate ops2.
Proof.
  unfold count_instantiate. rewrite filter_app, length_app. lia.
Qed.

Lemma lifecycle_step_instantiated (op : LifecycleOp) (c c' : Client) (w w' : World) :
  lifecycle_step plat drv op c w = Some (c', w') ->
  instantiated c <= instantiated c' <= instantiated c + count_instantiate [op].
Proof.
  intros Hstep. destruct op as [graph | k]; unfold lifecycle_step in Hstep.
  - change (count_instantiate [OpInstantiate graph]) with 1.
    destruct (InstantiateCudaGraph drv graph w) as [[e | st] w1];
      injection Hstep as <- <-; cbn; lia.
  - change (count_instantiate [OpDestroy k]) with 0.
    destruct (nth_error (held c) k) as [e | ]; [ | discriminate ].
    destruct (OwnedCudaGraphExec_dtor plat drv e w) as [w1 | msg w1];
      [ | discriminate ].
    injection Hstep as <- <-. cbn. lia.
Qed.

Lemma lifecycle_run_instantiated (ops : list LifecycleOp) :
  forall (c c' : Client) (w w' : World),
    lifecycle_run plat drv ops c w = Some (c', w') ->
    instantiated c <= instantiated c' <= instantiated c + count_instantiate ops.
Proof.
  induction ops as [ | op ops IH ]; intros c c' w w' Hrun.
  - injection Hrun as <- <-. cbn. lia.
  - cbn [lifecycle_run] in Hrun. rewrite count_instantiate_cons.
    destruct (lifecycle_step plat drv op c w) as [[c1 w1] | ] eqn:Hstep;
      [ | discriminate ].
    apply lifecycle_step_instantiated in Hstep. apply IH in Hrun. lia.
Qed.

(** X13. With verbose level 5 on, the registry follows the client at
    every point of a run with fewer than 2^64 instantiations: after any
    prefix, [alive] is the number of instantiations that returned a
    handle minus the number of non-empty handles destroyed, it lies
    between the number of non-empty handles still held and [allocated],
    and [allocated] never exceeds its final value. *)
Theorem X13_registry_follows_client_when_logged
        (ops1 ops2 : list LifecycleOp) (c' : Client) (w' : World) :
  VLOG_IS_ON plat 5 = true ->
  count_instantiate (ops1 ++ ops2) < 2 ^ 64 ->
  lifecycle_run plat drv (ops1 ++ ops2) new_client initial_world = Some (c', w') ->
  exists (c1 : Client) (w1 : World),
    lifecycle_run plat drv ops1 new_client initial_world = Some (c1, w1)
    /\ allocated_cuda_graph_execs_ w1 = instantiated c1
    /\ alive_cuda_graph_execs_ w1 = instantiated c1 - destroyed c1
    /\ count_nonempty (held c1) <= alive_cuda_graph_execs_ w1
       <= allocated_cuda_graph_execs_ w1
    /\ allocated_cuda_graph_execs_ w1 <= allocated_cuda_graph_execs_ w'.
Proof.
  intros Hlog Hhi Hrun.
  rewrite count_instantiate_app in Hhi.
  pose proof (count_instantiate_nonneg ops1) as Hn1.
  pose proof (count_instantiate_nonneg ops2) as Hn2.
  rewrite lifecycle_run_app in Hrun.
  destruct (lifecycle_run plat drv ops1 new_client initial_world)
    as [[c1 w1] | ] eqn:Hrun1; [ | discriminate ].
  exists c1, w1. split; [ reflexivity | ].
  pose proof Hrun1 as Hb1. apply lifecycle_run_instantiated in Hb1. cbn in Hb1.
  assert (Hinit : lifecycle_inv new_client initial_world)
    by (unfold lifecycle_inv; cbn; lia).
  apply (lifecycle_run_inv plat drv Hlog) in Hrun1;
    [ | exact Hinit | cbn; lia | cbn; lia ].
  destruct Hrun1 as (Hinv1 & _).
  pose proof Hinv1 as (Ha1 & Hl1 & Hh1 & Hd1).
  apply (lifecycle_run_inv plat drv Hlog) in Hrun; [ | exact Hinv1 | lia | lia ].
  destruct Hrun as ((Ha2 & _) & Hle2).
  repeat split; try assumption; lia.
Qed.

Lemma lifecycle_step_quiet (op : LifecycleOp) (c c' : Client) (w w' : World) :
  VLOG_IS_ON plat 5 = false ->
  alive_cuda_graph_execs_ w = instantiated c ->
  allocated_cuda_graph_execs_ w = instantiated c ->
  calls is_NotifyGraphExecDestroyed w = 0%nat ->
  0 <= instantiated c ->
  instantiated c + count_instantiate [op] < 2 ^ 64 ->
  lifecycle_step plat drv op c w = Some (c', w') ->
  alive_cuda_graph_execs_ w' = instantiated c'
  /\ allocated_cuda_graph_execs_ w' = instantiated c'
  /\ calls is_NotifyGraphExecDestroyed w' = 0%nat.
Proof.
  intros Hlog Hal Hall Hcalls Hlo Hhi Hstep.
  destruct op as [graph | k]; unfold lifecycle_step in Hstep.
  - change (count_instantiate [OpInstantiate graph]) with 1 in *.
    destruct (Z.eqb_spec (fst (GraphInstantiate_result drv w (graph_get graph)))
                         cudaSuccess) as [Hok | Hfail].
    + rewrite (InstantiateCudaGraph_success drv graph w Hok) in Hstep.
      rewrite NotifyGraphExecCreated_eq in Hstep. cbn [snd] in Hstep.
      injection Hstep as <- <-.
      cbn [instantiated allocated_cuda_graph_execs_ alive_cuda_graph_execs_ record].
      rewrite !wrap64_small by lia.
      repeat split; try lia.
      unfold calls in *. cbn [trace record].
      rewrite !filter_app, !length_app, Hcalls. reflexivity.
    + rewrite (InstantiateCudaGraph_failure drv graph w Hfail) in Hstep.
      destruct (_ =? cudaErrorMemoryAllocation); injection Hstep as <- <-;
        rewrite ?calls_record, Hcalls; cbn; auto.
  - destruct (nth_error (held c) k) as [e | ]; [ | discriminate ].
    pose proof (exec_dtor_silent_when_not_logged plat drv e w Hlog)
      as (Hc & Ha & Hb).
    destruct (OwnedCudaGraphExec_dtor plat drv e w) as [w2 | msg w2];
      [ | discriminate ].
    injection Hstep as <- <-. cbn in *. repeat split; lia.
Qed.

(** X14. Without verbose level 5 no destruction reaches the registry: after
    any run with fewer than 2^64 instantiations [alive] equals
    [allocated], the number of instantiations that returned a handle,
    however many handles were destroyed, and [NotifyGraphExecDestroyed]
    was never called. *)
Theorem X14_alive_is_allocated_without_verbose_logging
        (ops : list LifecycleOp) (c' : Client) (w' : World) :
  VLOG_IS_ON plat 5 = false ->
  count_instantiate ops < 2 ^ 64 ->
  lifecycle_run plat drv ops new_client initial_world = Some (c', w') ->
  alive_cuda_graph_execs_ w' = instantiated c'
  /\ allocated_cuda_graph_execs_ w' = instantiated c'
  /\ calls is_NotifyGraphExecDestroyed w' = 0%nat.
Proof.
  intros Hlog Hhi Hrun.
  assert (Hgen : forall ops c c' w w',
             alive_cuda_graph_execs_ w = instantiated c ->
             allocated_cuda_graph_execs_ w = instantiated c ->
             calls is_NotifyGraphExecDestroyed w = 0%nat ->
             0 <= instantiated c ->
             instantiated c + count_instantiate ops < 2 ^ 64 ->
             lifecycle_run plat drv ops c w = Some (c', w') ->
             alive_cuda_graph_execs_ w' = instantiated c'
             /\ allocated_cuda_graph_execs_ w' = instantiated c'
             /\ calls is_NotifyGraphExecDestroyed w' = 0%nat).
  { clear ops c' w' Hhi Hrun.
    induction ops as [ | op ops IH ]; intros c c' w w' Hal Hall Hcalls Hlo Hhi Hrun.
    - injection Hrun as <- <-. auto.
    - cbn [lifecycle_run] in Hrun. rewrite count_instantiate_cons in Hhi.
      pose proof (count_instantiate_nonneg ops) as Hn.
      pose proof (count_instantiate_nonneg [op]) as Hn1.
      destruct (lifecycle_step plat drv op c w) as [[c1 w1] | ] eqn:Hstep;
        [ | discriminate ].
      pose proof Hstep as Hb. apply lifecycle_step_instantiated in Hb.
      apply lifecycle_step_quiet in Hstep; try assumption; try lia.
      destruct Hstep as (Hal1 & Hall1 & Hcalls1).
      apply (IH c1 c' w1 w'); try assumption; lia. }
  apply (Hgen ops new_client c' initial_world w'); try assumption;
    try reflexivity; cbn; lia.
Qed.

End LifecycleCountFacts.

(* ===================================================================== *)
(** * Further properties of the type legalization pass *)
(* ===================================================================== *)

Section LegalizeMoreFacts.

Import LegalizeTfTypes.

Lemma Ty_eqb_eq (a b : Ty) : Ty_eqb a b = true <-> a = b.
Proof.
  unfold Ty_eqb. destruct (Ty_eq_dec a b) as [Heq | Hneq]; split; intros H;
    try assumption; try reflexivity; try discriminate. contradiction.
Qed.

Lemma ToLegalType_changes_illegal (t : Ty) :
  IsIllegalType t = true -> ToLegalType t <> t.
Proof.
  destruct t as [ | | | | | w s | name | k sh elem ]; cbn; intros H;
    try discriminate.
  destruct elem; cbn in H |- *; try discriminate H; intros Heq; discriminate Heq.
Qed.

Lemma isLegalType_spec (t : Ty) : isLegalType t = negb (IsIllegalType t).
Proof.
  unfold isLegalType, convertType, TfTypeConverter_convert.
  destruct (IsIllegalType t) eqn:Hill; cbn [negb].
  - unfold Ty_eqb. destruct (Ty_eq_dec (ToLegalType t) t) as [Heq | Hneq];
      [ | reflexivity ].
    exfalso. exact (ToLegalType_changes_illegal Hill Heq).
  - apply Ty_eqb_eq. reflexivity.
Qed.

Lemma convertTypes_map (types : list Ty) :
  convertTypes types = Some (map TfTypeConverter_convert types).
Proof.
  induction types as [ | t rest IH ]; cbn; [ reflexivity | ].
  rewrite IH. reflexivity.
Qed.

Lemma IsIllegalType_convert (t : Ty) :
  IsIllegalType (TfTypeConverter_convert t) = false.
Proof.
  unfold TfTypeConverter_convert. destruct (IsIllegalType t) eqn:Hill.
  - apply IsIllegalType_ToLegalType.
  - exact Hill.
Qed.

(** X15. For the converter of this pass a type is legal exactly when
    [IsIllegalType] is false on it; the converted type is always legal,
    so converting twice is converting once. *)
Theorem X15_type_legal_iff_not_illegal (t : Ty) :
  isLegalType t = negb (IsIllegalType t)
  /\ isLegalType (TfTypeConverter_convert t) = true
  /\ TfTypeConverter_convert (TfTypeConverter_convert t) = TfTypeConverter_convert t.
Proof.
  split; [ apply isLegalType_spec | ]. split.
  - rewrite isLegalType_spec, IsIllegalType_convert. reflexivity.
  - unfold TfTypeConverter_convert at 1. rewrite IsIllegalType_convert. reflexivity.
Qed.

Lemma forallb_isLegalType (types : list Ty) :
  forallb isLegalType types = forallb (fun t => negb (IsIllegalType t)) types.
Proof.
  induction types as [ | t rest IH ]; cbn [forallb]; [ reflexivity | ].
  rewrite isLegalType_spec, IH. reflexivity.
Qed.

(** X16. The conversion target declares an operation legal exactly when
    it is one of the nine uniform-quantization operations, whatever its
    types, or when none of its operand types, result types and, for a
    function, signature types has a quantized element type. *)
Theorem X16_operation_legality (op : Operation) :
  TfTypeConversionTarget_isLegal op
  = IsUnSupportedOp op
    || (forallb (fun t => negb (IsIllegalType t))
                (match getFunctionType op with
                 | Some (inputs, results) => inputs ++ results
                 | None => []
                 end)%list
        && forallb (fun t => negb (IsIllegalType t)) (getOperandTypes op)
        && forallb (fun t => negb (IsIllegalType t)) (getResultTypes op)).
Proof.
  unfold TfTypeConversionTarget_isLegal, isLegal, isSignatureLegal.
  rewrite !forallb_isLegalType.
  destruct (IsUnSupportedOp op); cbn [orb]; [ reflexivity | ].
  destruct (getFunctionType op) as [[inputs results] | ]; cbn [fst snd forallb andb].
  - rewrite forallb_isLegalType.
    destruct (forallb _ (inputs ++ results)); reflexivity.
  - reflexivity.
Qed.

Lemma convertRegionTypes_map (region : Region) :
  convertRegionTypes region
  = Some (map (fun b : Block => (map TfTypeConverter_convert (fst b), snd b)) region).
Proof.
  induction region as [ | [args ops] rest IH ]; cbn [convertRegionTypes map fst snd];
    [ reflexivity | ].
  rewrite convertTypes_map, IH. reflexivity.
Qed.

Lemma convertRegions_map (regions : list Region) :
  convertRegions regions
  = Some (map (map (fun b : Block => (map TfTypeConverter_convert (fst b), snd b)))
              regions).
Proof.
  induction regions as [ | r rest IH ]; cbn [convertRegions map]; [ reflexivity | ].
  rewrite convertRegionTypes_map, IH. reflexivity.
Qed.

Lemma forallb_isLegalType_convert (types : list Ty) :
  forallb isLegalType (map TfTypeConverter_convert types) = true.
Proof.
  induction types as [ | t rest IH ]; cbn [map forallb]; [ reflexivity | ].
  rewrite IH, isLegalType_spec, IsIllegalType_convert. reflexivity.
Qed.

(** X17. [matchAndRewrite] never fails. The operation it builds keeps the
    name, the attributes and the successors of the old one, takes the
    operands it is given, has as many results, each of the converted and
    therefore legal type, and has the same regions and blocks with the
    block argument types converted and the operations inside untouched.
    The counter of the operation's name grows by one, in 64-bit
    arithmetic, and no other counter changes. *)
Theorem X17_matchAndRewrite_succeeds
        (op : Operation) (operands : list Value) (count : Counter) :
  exists (new_op : Operation) (count' : Counter),
    matchAndRewrite op operands count = Some (new_op, count')
    /\ getName new_op = getName op
    /\ getOperands new_op = operands
    /\ getAttrs new_op = getAttrs op
    /\ getSuccessors new_op = getSuccessors op
    /\ getResultTypes new_op = map TfTypeConverter_convert (getResultTypes op)
    /\ forallb isLegalType (getResultTypes new_op) = true
    /\ getRegions new_op
       = map (map (fun b : Block => (map TfTypeConverter_convert (fst b), snd b)))
             (getRegions op)
    /\ count' (getName op) = wrap_int64 (count (getName op) + 1)
    /\ (forall label : string, label <> getName op -> count' label = count label).
Proof.
  unfold matchAndRewrite.
  rewrite convertTypes_map, convertRegions_map.
  eexists; eexists. split; [ reflexivity | ].
  cbn [getName getOperands getAttrs getSuccessors getResultTypes getRegions].
  repeat split.
  - apply forallb_isLegalType_convert.
  - unfold IncrementBy. rewrite String.eqb_refl. reflexivity.
  - intros label Hneq. unfold IncrementBy.
    destruct (String.eqb_spec label (getName op)) as [Heq | _];
      [ contradiction | reflexivity ].
Qed.

(** X18. The operation [matchAndRewrite] builds is legal for the
    conversion target as soon as the operands it was given have legal
    types and, for a function, the signature is legal: one application
    of the pattern settles the operation. *)
Theorem X18_rewritten_operation_is_legal
        (op new_op : Operation) (operands : list Value) (count count' : Counter) :
  matchAndRewrite op operands count = Some (new_op, count') ->
  forallb isLegalType (map value_type operands) = true ->
  match getFunctionType op with
  | Some ty => isSignatureLegal ty = true
  | None => True
  end ->
  TfTypeConversionTarget_isLegal new_op = true.
Proof.
  unfold matchAndRewrite.
  rewrite convertTypes_map, convertRegions_map.
  intros Hrw Hoperands Hsig. injection Hrw as <- _.
  unfold TfTypeConversionTarget_isLegal.
  destruct (IsUnSupportedOp _); [ reflexivity | ].
  assert (Hlegal : isLegal
                     (mkOperation (getName op) operands
                        (map TfTypeConverter_convert (getResultTypes op))
                        (getAttrs op) (getSuccessors op)
                        (map (map (fun b : Block =>
                                     (map TfTypeConverter_convert (fst b), snd b)))
                             (getRegions op))) = true).
  { unfold isLegal, getOperandTypes.
    cbn [getOperands getResultTypes].
    rewrite Hoperands, forallb_isLegalType_convert. reflexivity. }
  assert (Hfty : getFunctionType
                   (mkOperation (getName op) operands
                      (map TfTypeConverter_convert (getResultTypes op))
                      (getAttrs op) (getSuccessors op)
                      (map (map (fun b : Block =>
                                   (map TfTypeConverter_convert (fst b), snd b)))
                           (getRegions op)))
                 = getFunctionType op) by reflexivity.
  rewrite Hfty, Hlegal.
  destruct (getFunctionType op) as [ty | ]; [ rewrite Hsig | ]; reflexivity.
Qed.

Lemma mentions_quantized_IsIllegalType (t : Ty) :
  mentions_quantized t = false -> IsIllegalType t = false.
Proof.
  destruct t as [ | | | | | w s | name | k sh elem ]; cbn; intros H;
    try discriminate; try reflexivity.
  destruct elem; cbn in H |- *; try discriminate; reflexivity.
Qed.

(** X19. A type in which no quantized type occurs, at any depth, is left
    alone: [ToLegalType] and the converter return it as it is, and it is
    legal. *)
Theorem X19_types_without_quantized_are_kept (t : Ty) :
  mentions_quantized t = false ->
  ToLegalType t = t
  /\ TfTypeConverter_convert t = t
  /\ isLegalType t = true.
Proof.
  intros Hq.
  pose proof (mentions_quantized_IsIllegalType t Hq) as Hill.
  split; [ | split ].
  - destruct t as [ | | | | | w s | name | k sh elem ]; try discriminate Hq;
      try reflexivity.
    rewrite ToLegalType_shaped.
    rewrite (mentions_quantized_IsIllegalType elem Hq). reflexivity.
  - unfold TfTypeConverter_convert. rewrite Hill. reflexivity.
  - rewrite isLegalType_spec, Hill. reflexivity.
Qed.

(** X20. On a scalar type and on a shaped type of scalars, which is all
    the legality check looks at, the converter agrees with [ToLegalType]
    and its result contains no quantized type at all. *)
Theorem X20_flat_types_are_fully_legalized (t : Ty) :
  dyn_cast_ShapedType (getElementTypeOrSelf t) = None ->
  TfTypeConverter_convert t = ToLegalType t
  /\ mentions_quantized (TfTypeConverter_convert t) = false.
Proof.
  intros Hflat.
  destruct t as [ | | | | | w s | name | k sh elem ]; try (split; reflexivity).
  cbn in Hflat.
  destruct elem as [ | | | | | w s | name | k' sh' e' ]; try (split; reflexivity).
  discriminate Hflat.
Qed.

End LegalizeMoreFacts.

(* ===================================================================== *)
(** * Concrete runs of the further properties *)
(* ===================================================================== *)

Lemma X2_capture_leaves_stream_idle_witness :
  8 <> AsGpuStreamValue stream7
  /\ capture_state
       (snd (CaptureCudaGraph quiet_platform healthy_driver stream7 succeeding_capture
                              cudaStreamCaptureModeGlobal initial_world)) 7 = Idle.
Proof.
  split; [ discriminate | ].
  apply (X2_capture_leaves_stream_idle quiet_platform healthy_driver stream7
           succeeding_capture cudaStreamCaptureModeGlobal initial_world (other := 8)).
  discriminate.
Defined.

Lemma X3_capture_without_debug_dump_witness :
  ((12000 <=? CUDA_VERSION quiet_platform) && VLOG_IS_ON quiet_platform 100 = false
   \/ getenv quiet_platform "XLA_CUDA_GRAPH_DEBUG_DIRECTORY" = None)
  /\ StreamBeginCapture_result healthy_driver initial_world 7
                               cudaStreamCaptureModeGlobal = cudaSuccess
  /\ trace (snd (CaptureCudaGraph quiet_platform healthy_driver stream7
                                  succeeding_capture cudaStreamCaptureModeGlobal
                                  initial_world))
     = [EvStreamBeginCapture 7 cudaStreamCaptureModeGlobal; EvCapture;
        EvStreamEndCapture 7].
Proof.
  split; [ left; reflexivity | ].
  split; [ reflexivity | ].
  rewrite (X3_capture_without_debug_dump quiet_platform healthy_driver stream7
             succeeding_capture cudaStreamCaptureModeGlobal initial_world
             (or_introl eq_refl) eq_refl).
  reflexivity.
Defined.

Lemma X4_IsStreamCapturing_tracks_capture_witness :
  StreamBeginCapture_result healthy_driver initial_world 7
                            cudaStreamCaptureModeGlobal = cudaSuccess
  /\ fst (IsStreamCapturing healthy_driver stream7
            (world_at_capture stream7 cudaStreamCaptureModeGlobal initial_world))
     = Value true
  /\ fst (IsStreamCapturing healthy_driver stream7
            (snd (CaptureCudaGraph quiet_platform healthy_driver stream7
                                   failing_capture cudaStreamCaptureModeGlobal
                                   initial_world)))
     = Value false.
Proof.
  split; [ reflexivity | ].
  apply (X4_IsStreamCapturing_tracks_capture quiet_platform healthy_driver stream7
           failing_capture cudaStreamCaptureModeGlobal initial_world);
    reflexivity.
Defined.

Lemma X5_instantiate_success_witness :
  fst (GraphInstantiate_result healthy_driver initial_world 28672) = cudaSuccess
  /\ fst (InstantiateCudaGraph healthy_driver (mkOwnedCudaGraph 28672) initial_world)
     = Value (mkOwnedCudaGraphExec 4096 0 0 0)
  /\ allocated_cuda_graph_execs_
       (snd (InstantiateCudaGraph healthy_driver (mkOwnedCudaGraph 28672)
                                  initial_world)) = 0 + 1.
Proof.
  split; [ reflexivity | ].
  destruct (X5_instantiate_success healthy_driver (mkOwnedCudaGraph 28672)
              initial_world) as (Hv & Ha & _);
    [ reflexivity | cbn; lia | cbn; lia | ].
  split; [ exact Hv | exact Ha ].
Defined.

Lemma X7_launches_since_last_update_witness :
  VLOG_IS_ON verbose_platform 3 = true
  /\ Z.of_nat 2 < 2 ^ 64
  /\ num_launches_
       (snd (fst (Launch_times verbose_platform healthy_driver 2
                    (snd (fst (Update verbose_platform healthy_driver
                                      (mkOwnedCudaGraphExec 4096 0 0 5)
                                      (mkOwnedCudaGraph 28672) initial_world)))
                    stream7
                    (snd (Update verbose_platform healthy_driver
                                 (mkOwnedCudaGraphExec 4096 0 0 5)
                                 (mkOwnedCudaGraph 28672) initial_world)))))
     = Z.of_nat 2.
Proof.
  split; [ reflexivity | ].
  split; [ cbn; lia | ].
  apply (X7_launches_since_last_update verbose_platform healthy_driver 2
           (mkOwnedCudaGraphExec 4096 0 0 5) (mkOwnedCudaGraph 28672) stream7
           initial_world).
  - reflexivity.
  - cbn; lia.
Defined.

Lemma X8_counters_frozen_without_verbose_logging_witness :
  VLOG_IS_ON quiet_platform 3 = false
  /\ snd (fst (Launch_times quiet_platform healthy_driver 2
                            (mkOwnedCudaGraphExec 4096 0 0 5) stream7 initial_world))
     = mkOwnedCudaGraphExec 4096 0 0 5.
Proof.
  split; [ reflexivity | ].
  apply (X8_counters_frozen_without_verbose_logging quiet_platform healthy_driver 2
           (mkOwnedCudaGraphExec 4096 0 0 5) (mkOwnedCudaGraph 28672) stream7
           initial_world).
  reflexivity.
Defined.

Lemma X10_registry_accounts_modulo_2_64_witness :
  0 <= allocated_cuda_graph_execs_ initial_world < 2 ^ 64
  /\ 0 <= alive_cuda_graph_execs_ initial_world < 2 ^ 64
  /\ alive_cuda_graph_execs_
       (snd (registry_calls [CallCreated; CallCreated; CallDestroyed] initial_world))
     = wrap64 (0 + 2 - 1).
Proof.
  split; [ cbn; lia | ].
  split; [ cbn; lia | ].
  apply (X10_registry_accounts_modulo_2_64
           [CallCreated; CallCreated; CallDestroyed] initial_world);
    cbn; lia.
Defined.

Lemma X11_created_then_destroyed_witness :
  0 <= alive_cuda_graph_execs_ initial_world < 2 ^ 64 - 1
  /\ fst (NotifyGraphExecDestroyed (snd (NotifyGraphExecCreated initial_world))) = 0
  /\ fst (NotifyGraphExecDestroyed initial_world) = 2 ^ 64 - 1.
Proof.
  split; [ cbn; lia | ].
  destruct (X11_created_then_destroyed initial_world) as (H1 & _ & H3);
    [ cbn; lia | ].
  split; [ exact H1 | exact H3 ].
Defined.

Lemma X12_held_identities_are_distinct_witness :
  count_instantiate [OpInstantiate (mkOwnedCudaGraph 28672);
                     OpInstantiate (mkOwnedCudaGraph 28673); OpDestroy 0] < 2 ^ 64
  /\ exists (c' : Client) (w' : World),
      lifecycle_run quiet_platform healthy_driver
                    [OpInstantiate (mkOwnedCudaGraph 28672);
                     OpInstantiate (mkOwnedCudaGraph 28673); OpDestroy 0]
                    new_client initial_world = Some (c', w')
      /\ map id_ (held c') = [1]
      /\ NoDup (map id_ (held c')).
Proof.
  split; [ cbn; lia | ].
  eexists; eexists. split; [ reflexivity | ].
  split; [ reflexivity | ].
  eapply (X12_held_identities_are_distinct quiet_platform healthy_driver
            [OpInstantiate (mkOwnedCudaGraph 28672);
             OpInstantiate (mkOwnedCudaGraph 28673); OpDestroy 0]).
  - cbn; lia.
  - reflexivity.
Defined.

Lemma X13_registry_follows_client_when_logged_witness :
  VLOG_IS_ON verbose_platform 5 = true
  /\ count_instantiate ([OpInstantiate (mkOwnedCudaGraph 28672)] ++ [OpDestroy 0])
     < 2 ^ 64
  /\ exists (c1 : Client) (w1 : World),
      lifecycle_run verbose_platform healthy_driver
                    [OpInstantiate (mkOwnedCudaGraph 28672)]
                    new_client initial_world = Some (c1, w1)
      /\ alive_cuda_graph_execs_ w1 = instantiated c1 - destroyed c1.
Proof.
  split; [ reflexivity | ].
  split; [ cbn; lia | ].
  destruct (X13_registry_follows_client_when_logged verbose_platform healthy_driver
              [OpInstantiate (mkOwnedCudaGraph 28672)] [OpDestroy 0]
              (c' := mkClient [] 1 1)
              (w' := mkWorld (fun _ => Idle) 1 0
                             [EvGraphInstantiate 28672; EvNotifyGraphExecCreated;
                              EvNotifyGraphExecDestroyed; EvGraphExecDestroy 4096]))
    as (c1 & w1 & Hrun & _ & Halive & _);
    [ reflexivity | cbn; lia | reflexivity | ].
  exists c1, w1. split; [ exact Hrun | exact Halive ].
Defined.

Lemma X14_alive_is_allocated_without_verbose_logging_witness :
  VLOG_IS_ON quiet_platform 5 = false
  /\ count_instantiate [OpInstantiate (mkOwnedCudaGraph 28672); OpDestroy 0] < 2 ^ 64
  /\ exists (c' : Client) (w' : World),
      lifecycle_run quiet_platform healthy_driver
                    [OpInstantiate (mkOwnedCudaGraph 28672); OpDestroy 0]
                    new_client initial_world = Some (c', w')
      /\ alive_cuda_graph_execs_ w' = instantiated c'.
Proof.
  split; [ reflexivity | ].
  split; [ cbn; lia | ].
  eexists; eexists. split; [ reflexivity | ].
  eapply (X14_alive_is_allocated_without_verbose_logging quiet_platform healthy_driver
            [OpInstantiate (mkOwnedCudaGraph 28672); OpDestroy 0]).
  - reflexivity.
  - cbn; lia.
  - reflexivity.
Defined.

Lemma X18_rewritten_operation_is_legal_witness :
  forallb LegalizeTfTypes.isLegalType
          (map LegalizeTfTypes.value_type
               [LegalizeTfTypes.mkValue 0
                  (LegalizeTfTypes.ShapedType LegalizeTfTypes.RankedTensor (Some [4])
                     (LegalizeTfTypes.IntegerType 8 LegalizeTfTypes.Signless))]) = true
  /\ LegalizeTfTypes.TfTypeConversionTarget_isLegal
       (LegalizeTfTypes.mkOperation "tf.Identity"
          [LegalizeTfTypes.mkValue 0
             (LegalizeTfTypes.ShapedType LegalizeTfTypes.RankedTensor (Some [4])
                (LegalizeTfTypes.IntegerType 8 LegalizeTfTypes.Signless))]
          [LegalizeTfTypes.ShapedType LegalizeTfTypes.RankedTensor (Some [4])
             (LegalizeTfTypes.IntegerType 8 LegalizeTfTypes.Signless)]
          [] [] []) = true.
Proof.
  split; [ reflexivity | ].
  eapply (X18_rewritten_operation_is_legal
            (LegalizeTfTypes.mkOperation "tf.Identity"
               [LegalizeTfTypes.mkValue 0
                  (LegalizeTfTypes.ShapedType LegalizeTfTypes.RankedTensor
                     (Some [4]) LegalizeTfTypes.Qint8Type)]
               [LegalizeTfTypes.ShapedType LegalizeTfTypes.RankedTensor (Some [4])
                  LegalizeTfTypes.Qint8Type]
               [] [] [])
            [LegalizeTfTypes.mkValue 0
               (LegalizeTfTypes.ShapedType LegalizeTfTypes.RankedTensor
                  (Some [4])
                  (LegalizeTfTypes.IntegerType 8 LegalizeTfTypes.Signless))]
            (fun _ => 0)).
  - reflexivity.
  - reflexivity.
  - exact I.
Defined.

Lemma X19_types_without_quantized_are_kept_witness :
  LegalizeTfTypes.mentions_quantized
    (LegalizeTfTypes.ShapedType LegalizeTfTypes.RankedTensor (Some [2; 3])
       (LegalizeTfTypes.OtherType "f32")) = false
  /\ LegalizeTfTypes.ToLegalType
       (LegalizeTfTypes.ShapedType LegalizeTfTypes.RankedTensor (Some [2; 3])
          (LegalizeTfTypes.OtherType "f32"))
     = LegalizeTfTypes.ShapedType LegalizeTfTypes.RankedTensor (Some [2; 3])
         (LegalizeTfTypes.OtherType "f32").
Proof.
  split; [ reflexivity | ].
  apply (X19_types_without_quantized_are_kept
           (LegalizeTfTypes.ShapedType LegalizeTfTypes.RankedTensor (Some [2; 3])
              (LegalizeTfTypes.OtherType "f32"))).
  reflexivity.
Defined.

Lemma X20_flat_types_are_fully_legalized_witness :
  LegalizeTfTypes.dyn_cast_ShapedType
    (LegalizeTfTypes.getElementTypeOrSelf
       (LegalizeTfTypes.ShapedType LegalizeTfTypes.UnrankedTensor None
          LegalizeTfTypes.Quint16Type)) = None
  /\ LegalizeTfTypes.mentions_quantized
       (LegalizeTfTypes.TfTypeConverter_convert
          (LegalizeTfTypes.ShapedType LegalizeTfTypes.UnrankedTensor None
             LegalizeTfTypes.Quint16Type)) = false.
Proof.
  split; [ reflexivity | ].
  apply (X20_flat_types_are_fully_legalized
           (LegalizeTfTypes.ShapedType LegalizeTfTypes.UnrankedTensor None
              LegalizeTfTypes.Quint16Type)).
  reflexivity.
Defined.
